(** * PasswordManagementSection: a shallow embedding and its properties

    The development follows
    [src/components/members/password/PasswordManagementSection.tsx].

    Conventions of the embedding.
    - A JavaScript [Date] is the integer number of milliseconds since the
      epoch it wraps ([getTime()]), a [Z]; a [Date | null] prop is an
      [option Z].  Every quantity the component computes from dates stays
      well inside the range where double arithmetic on integers is exact,
      so [Math.floor (a / b)] is [Z.div] and [a % b] on a positive [a] is
      [Z.modulo].
    - The failed-attempt count is an integer [Z].
    - The component's three [useState] cells are the record [State].
    - What is on screen is the last committed render, so the world keeps
      the clock reading of that render ([rendered_at]) and the view is the
      render function applied to it.  A state setter called with a value
      equal to the current one does not re-render (React's bail-out).
    - [formatDistanceToNow] (date-fns) and [Date.prototype.toISOString] are
      library functions: they are parameters of the development. *)

From Stdlib Require Import ZArith List String Ascii Bool Lia.
From Stdlib Require Import DecimalString DecimalZ DecimalPos.
Import ListNotations.
Local Open Scope string_scope.
Local Open Scope Z_scope.

(** ** Props and local state *)

Record Props : Type := mkProps {
  memberId : string;
  memberNumber : string;
  memberName : string;
  passwordSetAt : option Z;
  failedLoginAttempts : Z;
  lockedUntil : option Z;
  passwordResetRequired : bool
}.

Record State : Type := mkState {
  showResetDialog : bool;
  isUnlocking : bool;
  timeRemaining : option string
}.

(** [useState(false)], [useState(false)], [useState<string | null>(null)]. *)
Definition initialState : State := mkState false false None.

Definition setShowResetDialog (b : bool) (s : State) : State :=
  mkState b (isUnlocking s) (timeRemaining s).

Definition setIsUnlocking (b : bool) (s : State) : State :=
  mkState (showResetDialog s) b (timeRemaining s).

Definition setTimeRemaining (t : option string) (s : State) : State :=
  mkState (showResetDialog s) (isUnlocking s) t.

(** ** Numbers in template literals *)

(** [`${n}`] for an integer [n]: its decimal numeral. *)
Definition numberToString (n : Z) : string :=
  NilZero.string_of_int (Z.to_int n).

(** ** Password age (lines 38-42) *)

Inductive AgeStatus : Type := warning | success.

(** [1000 * 60 * 60 * 24] *)
Definition msPerDay : Z := 1000 * 60 * 60 * 24.

Definition passwordAgeInDays (setAt : option Z) (now : Z) : Z :=
  match setAt with
  | Some t => (now - t) / msPerDay
  | None => 0
  end.

Definition passwordAgeStatus (setAt : option Z) (now : Z) : AgeStatus :=
  if 90 <? passwordAgeInDays setAt now then warning else success.

(** The colour word spliced into the class name (line 125). *)
Definition ageColour (a : AgeStatus) : string :=
  match a with warning => "yellow" | success => "green" end.

(** [`bg-${c}-500/10 text-${c}-500`] *)
Definition passwordBadgeClass (a : AgeStatus) : string :=
  "bg-" ++ ageColour a ++ "-500/10 text-" ++ ageColour a ++ "-500".

(** ** Battery icon (lines 45-50) *)

Inductive IconName : Type :=
  | BatteryFull | BatteryMedium | BatteryLow | BatteryWarning
  | Lock | LockKeyhole | Key | RefreshCw.

Record Icon : Type := mkIcon {
  icon_name : IconName;
  icon_class : string
}.

Definition BatteryIcon (failed : Z) : Icon :=
  if failed =? 0 then mkIcon BatteryFull "w-4 h-4 text-green-500"
  else if failed <=? 2 then mkIcon BatteryMedium "w-4 h-4 text-yellow-500"
  else if failed <=? 4 then mkIcon BatteryLow "w-4 h-4 text-orange-500"
  else mkIcon BatteryWarning "w-4 h-4 text-red-500".

(** ** The countdown string (lines 56-68) *)

(** What [updateTimer] hands to [setTimeRemaining] when the interval's
    closure holds the expiry [until] and the clock reads [now]. *)
Definition countdown (until now : Z) : option string :=
  let diff := until - now in
  if diff <=? 0 then None
  else
    let minutes := diff / (1000 * 60) in
    let seconds := (diff mod (1000 * 60)) / 1000 in
    Some (numberToString minutes ++ "m " ++ numberToString seconds ++ "s").

(** ** What a render produces (lines 117-197) *)

Record Badge : Type := mkBadge {
  badge_class : string;
  badge_icon : IconName;
  badge_text : string
}.

Record Button : Type := mkButton {
  button_disabled : bool;
  button_icon : IconName;
  button_label : string
}.

(** Props handed to [MagicLinkButton] and [AdminPasswordResetDialog]. *)
Record MagicLinkProps : Type := mkMagicLink {
  ml_memberNumber : string;
  ml_memberName : string
}.

Record DialogProps : Type := mkDialog {
  dlg_open : bool;
  dlg_memberNumber : string;
  dlg_memberName : string
}.

Record View : Type := mkView {
  v_passwordBadge : Badge;
  v_lockBadge : option Badge;
  v_resetRequiredBadge : option Badge;
  v_battery : Icon;
  v_failedText : string;
  v_unlockButton : option Button;
  v_resetButton : Button;
  v_magicLink : MagicLinkProps;
  v_dialog : DialogProps
}.

(** ** Side-effect channels *)

(** An error object as the backend client returns or throws it: it carries
    a human-readable [message]. *)
Record JsError : Type := mkError { message : string }.

Inductive JsValue : Type :=
  | VString (s : string)
  | VError (e : JsError).

Inductive LogLevel : Type := LevelLog | LevelError.

(** [console.log(label, { k1: v1, ... })] *)
Record LogEntry : Type := mkLog {
  log_level : LogLevel;
  log_label : string;
  log_fields : list (string * JsValue)
}.

Inductive ToastKind : Type := ToastSuccess | ToastError.

(** [toast.success(title, { description })] *)
Record Toast : Type := mkToast {
  toast_kind : ToastKind;
  toast_title : string;
  toast_description : string
}.

(** [supabase.rpc(name, { k: v })] *)
Record RpcCall : Type := mkRpc {
  rpc_name : string;
  rpc_params : list (string * string)
}.

(** How the awaited call settles: resolved with [{ error: null }],
    resolved with [{ error }], or rejected. *)
Inductive RpcOutcome : Type :=
  | RpcOk
  | RpcError (e : JsError)
  | RpcRejects (e : JsError).

(** What the handler's closure captured from the render that created it. *)
Record Captured : Type := mkCaptured {
  c_memberNumber : string;
  c_memberName : string
}.

Definition capture (p : Props) : Captured :=
  mkCaptured (memberNumber p) (memberName p).

(** ** The world the component runs in *)

Record World : Type := mkWorld {
  props : Props;
  st : State;
  rendered_at : Z;            (* clock reading of the last committed render *)
  now : Z;                    (* the wall clock, in milliseconds *)
  interval : option Z;        (* the live [setInterval], with the expiry its closure holds *)
  pending : list Captured;    (* unlock calls awaiting their response *)
  console : list LogEntry;
  toasts : list Toast;
  rpcs : list RpcCall
}.

Definition State_eq_dec (a b : State) : {a = b} + {a <> b}.
Proof.
  decide equality.
  - decide equality. apply string_dec.
  - apply bool_dec.
  - apply bool_dec.
Defined.

(** A [useState] setter: bail out when nothing changes, otherwise store the
    value and re-render at the current clock reading. *)
Definition set_state (f : State -> State) (w : World) : World :=
  let s' := f (st w) in
  if State_eq_dec s' (st w) then w
  else mkWorld (props w) s' (now w) (now w) (interval w) (pending w)
               (console w) (toasts w) (rpcs w).

Definition with_interval (i : option Z) (w : World) : World :=
  mkWorld (props w) (st w) (rendered_at w) (now w) i (pending w)
          (console w) (toasts w) (rpcs w).

Definition with_pending (l : list Captured) (w : World) : World :=
  mkWorld (props w) (st w) (rendered_at w) (now w) (interval w) l
          (console w) (toasts w) (rpcs w).

Definition elapse (ms : Z) (w : World) : World :=
  mkWorld (props w) (st w) (rendered_at w) (now w + ms) (interval w) (pending w)
          (console w) (toasts w) (rpcs w).

Definition add_log (e : LogEntry) (w : World) : World :=
  mkWorld (props w) (st w) (rendered_at w) (now w) (interval w) (pending w)
          (console w ++ [e]) (toasts w) (rpcs w).

Definition add_toast (t : Toast) (w : World) : World :=
  mkWorld (props w) (st w) (rendered_at w) (now w) (interval w) (pending w)
          (console w) (toasts w ++ [t]) (rpcs w).

Definition add_rpc (c : RpcCall) (w : World) : World :=
  mkWorld (props w) (st w) (rendered_at w) (now w) (interval w) (pending w)
          (console w) (toasts w) (rpcs w ++ [c]).

(** ** Completions and the handler monad *)

Inductive Completion (A : Type) : Type :=
  | Normal (a : A)
  | Throw (e : JsError).
Arguments Normal {A} a.
Arguments Throw {A} e.

Definition M (A : Type) : Type := World -> Completion A * World.

Definition ret {A} (a : A) : M A := fun w => (Normal a, w).

Definition bind {A B} (m : M A) (k : A -> M B) : M B :=
  fun w =>
    match m w with
    | (Normal a, w') => k a w'
    | (Throw e, w') => (Throw e, w')
    end.

Definition throw {A} (e : JsError) : M A := fun w => (Throw e, w).

Notation "x <- m ;; k" := (bind m (fun x => k))
  (at level 61, m at next level, right associativity).
Notation "m ;; k" := (bind m (fun _ => k))
  (at level 61, right associativity).

(** [try { body } catch (e) { handler e } finally { fin }]: the statement
    completes as the body or the handler did, unless [fin] itself throws. *)
Definition try_catch_finally {A} (body : M A) (handler : JsError -> M A)
    (fin : M unit) : M A :=
  fun w =>
    let '(r, w1) :=
      match body w with
      | (Normal a, w') => (Normal a, w')
      | (Throw e, w') => handler e w'
      end in
    match fin w1 with
    | (Normal _, w2) => (r, w2)
    | (Throw e, w2) => (Throw e, w2)
    end.

Definition setIsUnlockingM (b : bool) : M unit :=
  fun w => (Normal tt, set_state (setIsUnlocking b) w).

Definition emit_log (e : LogEntry) : M unit :=
  fun w => (Normal tt, add_log e w).

Definition emit_toast (t : Toast) : M unit :=
  fun w => (Normal tt, add_toast t w).

Definition emit_rpc (c : RpcCall) : M unit :=
  fun w => (Normal tt, add_rpc c w).

Definition clock : M Z := fun w => (Normal (now w), w).

(** ** The object literals of the unlock handler (lines 78-111)

    [iso] stands for [new Date().toISOString()], [t] for the clock
    reading. *)
Definition startLogEntry (iso : Z -> string) (c : Captured) (t : Z) : LogEntry :=
  mkLog LevelLog "Unlocking account for member:"
    [("memberNumber", VString (c_memberNumber c));
     ("memberName", VString (c_memberName c));
     ("timestamp", VString (iso t))].

Definition errorLogEntry (iso : Z -> string) (label : string) (c : Captured)
    (e : JsError) (t : Z) : LogEntry :=
  mkLog LevelError label
    [("error", VError e);
     ("memberNumber", VString (c_memberNumber c));
     ("timestamp", VString (iso t))].

Definition unlockRpc (c : Captured) : RpcCall :=
  mkRpc "reset_failed_login" [("member_number", c_memberNumber c)].

Definition successToast (c : Captured) : Toast :=
  mkToast ToastSuccess "Account has been unlocked"
    ("Successfully unlocked account for " ++ c_memberName c).

Definition errorToast (e : JsError) : Toast :=
  mkToast ToastError "Failed to unlock account" (message e).

Section Component.

(** date-fns [formatDistanceToNow date], read at clock [now]. *)
Variable formatDistanceToNow : Z -> Z -> string.

(** [new Date().toISOString()] for the clock reading. *)
Variable toISOString : Z -> string.

(** ** render (lines 117-197) *)

(** [lockedUntil && new Date(lockedUntil) > new Date()] *)
Definition lockActive (until : option Z) (now : Z) : bool :=
  match until with
  | Some l => now <? l
  | None => false
  end.

Definition passwordBadge (setAt : option Z) (now : Z) : Badge :=
  mkBadge (passwordBadgeClass (passwordAgeStatus setAt now)) LockKeyhole
    match setAt with
    | Some t => "Set " ++ formatDistanceToNow t now ++ " ago"
    | None => "No Password"
    end.

Definition lockBadge (remaining : option string) : Badge :=
  mkBadge "bg-red-500/10 text-red-500" Lock
    match remaining with
    | Some r => "Locked for " ++ r
    | None => "Locked"
    end.

Definition resetRequiredBadge : Badge :=
  mkBadge "bg-blue-500/10 text-blue-500" RefreshCw "Reset Required".

Definition unlockButton (unlocking : bool) : Button :=
  mkButton unlocking Lock (if unlocking then "Unlocking..." else "Unlock").

Definition resetButton : Button := mkButton false Key "Reset Password".

Definition render (p : Props) (s : State) (now : Z) : View :=
  mkView
    (passwordBadge (passwordSetAt p) now)
    (if lockActive (lockedUntil p) now
     then Some (lockBadge (timeRemaining s)) else None)
    (if passwordResetRequired p then Some resetRequiredBadge else None)
    (BatteryIcon (failedLoginAttempts p))
    ("Failed attempts: " ++ numberToString (failedLoginAttempts p))
    (if lockActive (lockedUntil p) now
     then Some (unlockButton (isUnlocking s)) else None)
    resetButton
    (mkMagicLink (memberNumber p) (memberName p))
    (mkDialog (showResetDialog s) (memberNumber p) (memberName p)).

(** What is on screen: the last committed render. *)
Definition view (w : World) : View := render (props w) (st w) (rendered_at w).

(** ** The countdown effect (lines 53-74) *)

(** [updateTimer], closed over the expiry [until]. *)
Definition updateTimer (until : Z) (w : World) : World :=
  set_state (setTimeRemaining (countdown until (now w))) w.

(** The effect body: nothing for a null expiry, otherwise [setInterval]
    and one synchronous [updateTimer()]. *)
Definition runEffect (w : World) : World :=
  match lockedUntil (props w) with
  | None => w
  | Some l => updateTimer l (with_interval (Some l) w)
  end.

(** The cleanup returned by the previous run: [clearInterval(timer)]. *)
Definition cleanupEffect (w : World) : World := with_interval None w.

(** Dependency array [[lockedUntil]]: the effect is re-run when the prop
    changes (dates are compared by the instant they hold). *)
Definition depsChanged (old new : option Z) : bool :=
  match old, new with
  | None, None => false
  | Some a, Some b => negb (a =? b)
  | _, _ => true
  end.

(** ** handleUnlockAccount (lines 76-115) *)

Definition unlockLog (c : Captured) : M unit :=
  t <- clock ;;
  emit_log (startLogEntry toISOString c t).

Definition errorLog (label : string) (c : Captured) (e : JsError) : M unit :=
  t <- clock ;;
  emit_log (errorLogEntry toISOString label c e t).

(** The [try] block up to the [await]: log, mark busy, issue the call. *)
Definition tryBeforeAwait (c : Captured) : M unit :=
  unlockLog c ;;
  setIsUnlockingM true ;;
  emit_rpc (unlockRpc c).

(** [const { error } = await ...]: a rejection throws at the [await]. *)
Definition awaitResult (o : RpcOutcome) : M (option JsError) :=
  match o with
  | RpcOk => ret None
  | RpcError e => ret (Some e)
  | RpcRejects e => throw e
  end.

(** The rest of the [try] block, once the call has settled. *)
Definition tryAfterAwait (c : Captured) (o : RpcOutcome) : M unit :=
  error <- awaitResult o ;;
  match error with
  | Some e =>
      errorLog "Error unlocking account:" c e ;;
      throw e
  | None =>
      emit_toast (successToast c)
  end.

Definition catchClause (c : Captured) (e : JsError) : M unit :=
  errorLog "Failed to unlock account:" c e ;;
  emit_toast (errorToast e).

Definition finallyClause : M unit := setIsUnlockingM false.

(** First half of the async function: it runs to the [await] and suspends
    ([None]), or settles at once if the [try] block threw before it. *)
Definition handleUnlockAccount_start (c : Captured) (w : World)
    : option (Completion unit) * World :=
  match tryBeforeAwait c w with
  | (Normal _, w1) => (None, with_pending (pending w1 ++ [c]) w1)
  | (Throw e, w1) =>
      let '(r, w2) :=
        try_catch_finally (throw e) (catchClause c) finallyClause w1 in
      (Some r, w2)
  end.

(** Second half: resumed with the settled call. *)
Definition handleUnlockAccount_resume (c : Captured) (o : RpcOutcome) : M unit :=
  try_catch_finally (tryAfterAwait c o) (catchClause c) finallyClause.

(** ** Events *)

Inductive Event : Type :=
  | Elapse (ms : N)                       (* the clock advances *)
  | Tick                                  (* the interval fires *)
  | ClickUnlock
  | RpcSettles (i : nat) (o : RpcOutcome) (* the i-th pending call settles *)
  | ClickResetPassword
  | DialogOpenChange (open : bool)        (* the dialog calls [onOpenChange] *)
  | PropsChange (p : Props) (gap : N).    (* the parent re-renders with [p];
                                             effects flush [gap] ms later *)

Fixpoint remove_nth {A} (i : nat) (l : list A) : list A :=
  match l, i with
  | [], _ => []
  | _ :: t, O => t
  | h :: t, S j => h :: remove_nth j t
  end.

(** Mount: first render at [t], effects flushed [gap] ms later. *)
Definition mount (p : Props) (t : Z) (gap : N) : World :=
  runEffect (mkWorld p initialState t (t + Z.of_N gap) None [] [] [] []).

Definition changeProps (p : Props) (gap : N) (w : World) : World :=
  let w1 := mkWorld p (st w) (now w) (now w + Z.of_N gap) (interval w)
                    (pending w) (console w) (toasts w) (rpcs w) in
  if depsChanged (lockedUntil (props w)) (lockedUntil p)
  then runEffect (cleanupEffect w1)
  else w1.

Definition step (e : Event) (w : World) : World :=
  match e with
  | Elapse ms => elapse (Z.of_N ms) w
  | Tick =>
      match interval w with
      | Some l => updateTimer l w
      | None => w
      end
  | ClickUnlock =>
      match v_unlockButton (view w) with
      | Some b =>
          if button_disabled b then w
          else snd (handleUnlockAccount_start (capture (props w)) w)
      | None => w
      end
  | RpcSettles i o =>
      match nth_error (pending w) i with
      | Some c =>
          snd (handleUnlockAccount_resume c o
                 (with_pending (remove_nth i (pending w)) w))
      | None => w
      end
  | ClickResetPassword => set_state (setShowResetDialog true) w
  | DialogOpenChange open => set_state (setShowResetDialog open) w
  | PropsChange p gap => changeProps p gap w
  end.

Definition run (es : list Event) (w : World) : World :=
  fold_left (fun w e => step e w) es w.

End Component.

(** ** Concrete inputs used in examples *)

(** Stand-ins for the two library functions, for closed examples only. *)
Definition sampleDistance (date now : Z) : string :=
  numberToString ((now - date) / msPerDay) ++ " days".

Definition sampleISO (t : Z) : string := "T+" ++ numberToString t.

Definition sampleProps (setAt until : option Z) (failed : Z) : Props :=
  mkProps "uuid-1" "TM10003" "Ada" setAt failed until false.

(** The four battery tiers, as rendered. *)
Definition tierFull : Icon := mkIcon BatteryFull "w-4 h-4 text-green-500".
Definition tierMedium : Icon := mkIcon BatteryMedium "w-4 h-4 text-yellow-500".
Definition tierLow : Icon := mkIcon BatteryLow "w-4 h-4 text-orange-500".
Definition tierWarning : Icon := mkIcon BatteryWarning "w-4 h-4 text-red-500".

(** A badge carries no age classification when its class is neither the
    stale (yellow) nor the fresh (green) one. *)
Definition noAgeClassification (b : Badge) : Prop :=
  badge_class b <> passwordBadgeClass warning /\
  badge_class b <> passwordBadgeClass success.

(** [k] interval firings, each exactly one second after the previous
    clock reading. *)
Fixpoint secondTicks (k : nat) : list Event :=
  match k with
  | O => []
  | S k' => Elapse 1000 :: Tick :: secondTicks k'
  end.

(** The countdown after a mount and [k] exact one-second ticks. *)
Definition countdownAfter (p : Props) (t : Z) (gap : N) (k : nat) : option string :=
  timeRemaining
    (st (run sampleDistance sampleISO (secondTicks k)
           (mount p t gap))).

(** Is the lock shown: the lock badge or the unlock button is on screen. *)
Definition lockShown (v : View) : bool :=
  match v_lockBadge v, v_unlockButton v with
  | None, None => false
  | _, _ => true
  end.

Definition isPropsChange (e : Event) : bool :=
  match e with PropsChange _ _ => true | _ => false end.

Definition isSettle (e : Event) : bool :=
  match e with RpcSettles _ _ => true | _ => false end.

(** The error a settled call carries, if any. *)
Definition outcomeError (o : RpcOutcome) : option JsError :=
  match o with
  | RpcOk => None
  | RpcError e => Some e
  | RpcRejects e => Some e
  end.

(** The invariant behind the disappearing lock badge, for fixed props [p]
    with expiry [l]: the interval is live, the last render is not in the
    future, and a render from before the expiry goes with a countdown
    string that is set (so that the update clearing it re-renders). *)
Definition lockInv (p : Props) (l : Z) (w : World) : Prop :=
  props w = p /\
  interval w = Some l /\
  rendered_at w <= now w /\
  (rendered_at w < l -> timeRemaining (st w) <> None).

(** Modelled from the spec: [AdminPasswordResetDialog] is not part of the
    sources at hand; the spec describes the callback it is given as "the
    dialog's own close callback", so the dialog calls [onOpenChange] with
    [false] only.  An event respects this when it is not an [onOpenChange]
    call with [true]. *)
Definition dialogOnlyCloses (e : Event) : bool :=
  match e with
  | DialogOpenChange open => negb open
  | _ => true
  end.

(** The same props under another member id. *)
Definition withMemberId (id : string) (p : Props) : Props :=
  mkProps id (memberNumber p) (memberName p) (passwordSetAt p)
          (failedLoginAttempts p) (lockedUntil p) (passwordResetRequired p).

Definition eventWithMemberId (f : string -> string) (e : Event) : Event :=
  match e with
  | PropsChange p gap => PropsChange (withMemberId (f (memberId p)) p) gap
  | _ => e
  end.

Definition worldWithMemberId (f : string -> string) (w : World) : World :=
  mkWorld (withMemberId (f (memberId (props w))) (props w)) (st w)
          (rendered_at w) (now w) (interval w) (pending w)
          (console w) (toasts w) (rpcs w).

(** Everything an observer can see of a run: the screen, the remote calls,
    the notifications and the log. *)
Definition observe (fdn : Z -> Z -> string) (w : World)
    : View * list RpcCall * list Toast * list LogEntry :=
  (view fdn w, rpcs w, toasts w, console w).

(** The timer follows the prop, and the screen is not from the future. *)
Definition timerInv (w : World) : Prop :=
  interval w = lockedUntil (props w) /\ rendered_at w <= now w.

(** At most one unlock call is in flight, the busy flag says whether one
    is, and every call made is either pending or answered by one
    notification. *)
Definition flightInv (w : World) : Prop :=
  ((isUnlocking (st w) = false /\ pending w = []) \/
   (isUnlocking (st w) = true /\ exists c, pending w = [c])) /\
  List.length (rpcs w) = (List.length (toasts w) + List.length (pending w))%nat.

(** The events that run the unlock handler. *)
Definition isHandlerEvent (e : Event) : bool :=
  match e with
  | ClickUnlock | RpcSettles _ _ => true
  | _ => false
  end.

(** How alarming a battery icon is. *)
Definition tierRank (i : Icon) : Z :=
  match icon_name i with
  | BatteryFull => 0
  | BatteryMedium => 1
  | BatteryLow => 2
  | BatteryWarning => 3
  | _ => 0
  end.

(** The labels of the error entries the resumed handler logs. *)
Definition errorLabels (o : RpcOutcome) : list string :=
  match o with
  | RpcOk => []
  | RpcError _ => ["Error unlocking account:"; "Failed to unlock account:"]
  | RpcRejects _ => ["Failed to unlock account:"]
  end.

(** * Properties *)

(** ** Password age *)

Lemma passwordAgeStatus_warning_iff (setAt : option Z) (now : Z) :
  passwordAgeStatus setAt now = warning <-> 90 < passwordAgeInDays setAt now.
Proof.
  unfold passwordAgeStatus.
  destruct (Z.ltb_spec 90 (passwordAgeInDays setAt now)); split;
    intros; try discriminate; try reflexivity; lia.
Qed.

Lemma passwordAgeStatus_success_iff (setAt : option Z) (now : Z) :
  passwordAgeStatus setAt now = success <-> passwordAgeInDays setAt now <= 90.
Proof.
  unfold passwordAgeStatus.
  destruct (Z.ltb_spec 90 (passwordAgeInDays setAt now)); split;
    intros; try discriminate; try reflexivity; lia.
Qed.

(** C1 (as stated, refuted): with a null password-set timestamp the badge
    does read "No Password", but it is not free of an age classification:
    the age defaults to 0 days and the badge carries the fresh (green)
    class. *)
Lemma C1_null_timestamp_is_classified :
  let p := sampleProps None None 0 in
  let b := v_passwordBadge (render sampleDistance p initialState 1700000000000) in
  badge_text b = "No Password" /\
  passwordAgeStatus (passwordSetAt p) 1700000000000 = success /\
  badge_class b = "bg-green-500/10 text-green-500" /\
  ~ noAgeClassification b.
Proof.
  cbv zeta. repeat split.
  intros [_ H]. apply H. reflexivity.
Qed.

(** C1 (amended): for every rendering where the password-set timestamp is
    null, the password badge reads "No Password", the age is taken to be 0
    days, and the classification is the fresh one ('success', green class),
    never the stale one ('warning'). *)
Theorem C1_null_timestamp_badge
    (formatDistanceToNow : Z -> Z -> string) (p : Props) (s : State) (now : Z)
    (Hnull : passwordSetAt p = None) :
  let b := v_passwordBadge (render formatDistanceToNow p s now) in
  badge_text b = "No Password" /\
  passwordAgeInDays (passwordSetAt p) now = 0 /\
  passwordAgeStatus (passwordSetAt p) now = success /\
  passwordAgeStatus (passwordSetAt p) now <> warning /\
  badge_class b = "bg-green-500/10 text-green-500".
Proof.
  cbv zeta. unfold render, passwordBadge. cbn [v_passwordBadge badge_text badge_class].
  rewrite Hnull. repeat split. discriminate.
Qed.

Lemma C1_null_timestamp_badge_witness :
  let p := sampleProps None (Some 5000) 2 in
  let b := v_passwordBadge (render sampleDistance p initialState 1000) in
  badge_text b = "No Password" /\
  passwordAgeInDays (passwordSetAt p) 1000 = 0 /\
  passwordAgeStatus (passwordSetAt p) 1000 = success /\
  passwordAgeStatus (passwordSetAt p) 1000 <> warning /\
  badge_class b = "bg-green-500/10 text-green-500".
Proof.
  apply (C1_null_timestamp_badge sampleDistance (sampleProps None (Some 5000) 2)
           initialState 1000).
  reflexivity.
Defined.

(** C5: for a non-null password-set timestamp the age is the whole number
    of elapsed days (the floor of elapsed milliseconds over one day); the
    classification is 'warning' exactly when the age exceeds 90 and
    'success' exactly when it is 90 or fewer, so an age of exactly 90 days
    is fresh. *)
Theorem C5_password_age_classification (t now : Z) :
  let age := passwordAgeInDays (Some t) now in
  age = (now - t) / 86400000 /\
  (age * 86400000 <= now - t < (age + 1) * 86400000) /\
  (passwordAgeStatus (Some t) now = warning <-> 90 < age) /\
  (passwordAgeStatus (Some t) now = success <-> age <= 90) /\
  (passwordAgeStatus (Some t) now = warning <-> 91 * 86400000 <= now - t) /\
  (age = 90 -> passwordAgeStatus (Some t) now = success).
Proof.
  cbv zeta.
  assert (Hage : passwordAgeInDays (Some t) now = (now - t) / 86400000)
    by reflexivity.
  pose proof (Z.div_mod (now - t) 86400000 ltac:(lia)) as Hdm.
  pose proof (Z.mod_pos_bound (now - t) 86400000 ltac:(lia)) as Hmod.
  rewrite passwordAgeStatus_warning_iff, passwordAgeStatus_success_iff, Hage.
  repeat split; try lia.
Qed.

Example C5_exactly_90_days_is_fresh :
  passwordAgeStatus (Some 0) (90 * msPerDay) = success /\
  passwordAgeStatus (Some 0) (91 * msPerDay - 1) = success /\
  passwordAgeStatus (Some 0) (91 * msPerDay) = warning.
Proof. repeat split. Qed.

(** ** Battery tiers *)

(** C6: for every non-negative failed-attempt count the indicator is
    exactly one of four pairwise distinct tiers: 0 gives full/green, 1-2
    medium/yellow, 3-4 low/orange, 5 and above warning/red. *)
Theorem C6_battery_tiers (n : Z) (Hn : 0 <= n) :
  (BatteryIcon n = tierFull <-> n = 0) /\
  (BatteryIcon n = tierMedium <-> 1 <= n <= 2) /\
  (BatteryIcon n = tierLow <-> 3 <= n <= 4) /\
  (BatteryIcon n = tierWarning <-> 5 <= n) /\
  (tierFull <> tierMedium /\ tierFull <> tierLow /\ tierFull <> tierWarning /\
   tierMedium <> tierLow /\ tierMedium <> tierWarning /\ tierLow <> tierWarning).
Proof.
  unfold BatteryIcon, tierFull, tierMedium, tierLow, tierWarning.
  destruct (Z.eqb_spec n 0); destruct (Z.leb_spec n 2); destruct (Z.leb_spec n 4);
    repeat split; intros; try discriminate; try reflexivity; try lia.
Qed.

Lemma C6_battery_tiers_witness :
  (BatteryIcon 3 = tierFull <-> 3 = 0) /\
  (BatteryIcon 3 = tierMedium <-> 1 <= 3 <= 2) /\
  (BatteryIcon 3 = tierLow <-> 3 <= 3 <= 4) /\
  (BatteryIcon 3 = tierWarning <-> 5 <= 3) /\
  (tierFull <> tierMedium /\ tierFull <> tierLow /\ tierFull <> tierWarning /\
   tierMedium <> tierLow /\ tierMedium <> tierWarning /\ tierLow <> tierWarning).
Proof.
  apply (C6_battery_tiers 3). lia.
Defined.

(** ** Setters and the clock *)

Lemma set_state_st (f : State -> State) (w : World) :
  st (set_state f w) = f (st w).
Proof.
  unfold set_state. destruct (State_eq_dec (f (st w)) (st w)) as [E|E]; cbn.
  - symmetry; exact E.
  - reflexivity.
Qed.

Lemma set_state_frame (f : State -> State) (w : World) :
  props (set_state f w) = props w /\ now (set_state f w) = now w /\
  interval (set_state f w) = interval w /\ pending (set_state f w) = pending w /\
  console (set_state f w) = console w /\ toasts (set_state f w) = toasts w /\
  rpcs (set_state f w) = rpcs w.
Proof.
  unfold set_state. destruct (State_eq_dec (f (st w)) (st w)); cbn; repeat split.
Qed.

Lemma set_state_rendered_at (f : State -> State) (w : World) :
  rendered_at (set_state f w) = rendered_at w \/
  (f (st w) <> st w /\ rendered_at (set_state f w) = now w).
Proof.
  unfold set_state. destruct (State_eq_dec (f (st w)) (st w)); cbn; auto.
Qed.

Lemma updateTimer_timeRemaining (l : Z) (w : World) :
  timeRemaining (st (updateTimer l w)) = countdown l (now w).
Proof. unfold updateTimer. rewrite set_state_st. reflexivity. Qed.

(** ** The countdown string *)

Lemma countdown_expired (l t : Z) : l - t <= 0 -> countdown l t = None.
Proof.
  intros H. unfold countdown. cbv zeta.
  destruct (Z.leb_spec (l - t) 0); [reflexivity | lia].
Qed.

Lemma countdown_running (l t : Z) :
  0 < l - t ->
  countdown l t =
    Some (numberToString ((l - t) / 60000) ++ "m " ++
          numberToString (((l - t) mod 60000) / 1000) ++ "s").
Proof.
  intros H. unfold countdown. cbv zeta.
  destruct (Z.leb_spec (l - t) 0); [lia | reflexivity].
Qed.

Lemma countdown_None_iff (l t : Z) : countdown l t = None <-> l <= t.
Proof.
  split; intros H.
  - destruct (Z_lt_le_dec t l) as [Hlt|Hle]; [|exact Hle].
    rewrite countdown_running in H by lia. discriminate.
  - apply countdown_expired. lia.
Qed.

(** On whole seconds the two fields are the quotient and remainder by 60. *)
Lemma countdown_whole_seconds (l t n : Z) :
  l - t = 1000 * n -> 0 < n ->
  countdown l t =
    Some (numberToString (n / 60) ++ "m " ++ numberToString (n mod 60) ++ "s").
Proof.
  intros E Hn. rewrite countdown_running by lia. rewrite E.
  replace 60000 with (1000 * 60) by reflexivity.
  rewrite Z.div_mul_cancel_l by lia.
  rewrite Z.mul_mod_distr_l by lia.
  rewrite (Z.mul_comm 1000 (n mod 60)), Z.div_mul by lia.
  reflexivity.
Qed.

(** Reading a numeral back: a decimal numeral followed by a letter that
    matches "0" followed by that letter denotes zero. *)
Ltac zero_numeral d H :=
  destruct d as [|d|d|d|d|d|d|d|d|d|d]; cbn in H; try discriminate H;
  [ injection H as H; split; [reflexivity | exact H]
  | injection H as H;
    destruct d; cbn in H; try discriminate H;
    injection H as H; split; [reflexivity | exact H] ].

Lemma numeral_before_m (d : Decimal.uint) (r r' : string) :
  (NilZero.string_of_uint d ++ String "m" r)%string = String "0" (String "m" r') ->
  Z.of_uint d = 0 /\ r = r'.
Proof. intros H. zero_numeral d H. Qed.

Lemma numeral_before_s (d : Decimal.uint) (r r' : string) :
  (NilZero.string_of_uint d ++ String "s" r)%string = String "0" (String "s" r') ->
  Z.of_uint d = 0 /\ r = r'.
Proof. intros H. zero_numeral d H. Qed.

Lemma numberToString_nonneg (n : Z) :
  0 <= n -> exists d, Z.to_int n = Decimal.Pos d /\ Z.of_uint d = n.
Proof.
  intros Hn. pose proof (DecimalZ.of_to n) as E.
  destruct n as [|p|p]; [| |lia]; cbn in *; eauto.
Qed.

Lemma zero_zero_fields (m s : Z) :
  0 <= m -> 0 <= s ->
  (numberToString m ++ "m " ++ numberToString s ++ "s")%string = "0m 0s" ->
  m = 0 /\ s = 0.
Proof.
  intros Hm Hs H. unfold numberToString in H.
  destruct (numberToString_nonneg m Hm) as (dm & Em & Vm).
  destruct (numberToString_nonneg s Hs) as (ds & Es & Vs).
  rewrite Em, Es in H. cbn [NilZero.string_of_int] in H.
  change ("m " ++ NilZero.string_of_uint ds ++ "s")%string
    with (String "m" (String " " (NilZero.string_of_uint ds ++ "s")))%string in H.
  apply numeral_before_m in H. destruct H as [Zm H].
  injection H as H.
  apply (numeral_before_s ds "" "") in H. destruct H as [Zs _].
  lia.
Qed.

(** "0m 0s" is what a timer update shows exactly in the last second before
    the expiry. *)
Lemma countdown_zero_zero_iff (l t : Z) :
  countdown l t = Some "0m 0s" <-> 0 < l - t < 1000.
Proof.
  split.
  - intros H.
    destruct (Z_lt_le_dec 0 (l - t)) as [Hpos|Hneg].
    + rewrite countdown_running in H by exact Hpos.
      injection H as H.
      apply zero_zero_fields in H.
      * destruct H as [Hm Hs].
        pose proof (Z.div_mod (l - t) 60000 ltac:(lia)) as D1.
        pose proof (Z.mod_pos_bound (l - t) 60000 ltac:(lia)) as B1.
        pose proof (Z.div_mod ((l - t) mod 60000) 1000 ltac:(lia)) as D2.
        pose proof (Z.mod_pos_bound ((l - t) mod 60000) 1000 ltac:(lia)) as B2.
        lia.
      * apply Z.div_pos; lia.
      * apply Z.div_pos; [apply Z.mod_pos_bound|]; lia.
    + rewrite countdown_expired in H by lia. discriminate.
  - intros H. rewrite countdown_running by lia.
    rewrite (Z.div_small (l - t) 60000) by lia.
    rewrite (Z.mod_small (l - t) 60000) by lia.
    rewrite (Z.div_small (l - t) 1000) by lia.
    reflexivity.
Qed.

(** ** Ticking *)

Section Ticking.

Variable fdn : Z -> Z -> string.
Variable iso : Z -> string.

Lemma updateTimer_frame (l : Z) (w : World) :
  props (updateTimer l w) = props w /\ now (updateTimer l w) = now w /\
  interval (updateTimer l w) = interval w.
Proof.
  unfold updateTimer.
  destruct (set_state_frame (setTimeRemaining (countdown l (now w))) w)
    as (? & ? & ? & _).
  auto.
Qed.

Lemma mount_locked (p : Props) (t : Z) (gap : N) (l : Z) :
  lockedUntil p = Some l ->
  props (mount p t gap) = p /\
  now (mount p t gap) = t + Z.of_N gap /\
  interval (mount p t gap) = Some l /\
  timeRemaining (st (mount p t gap)) = countdown l (t + Z.of_N gap).
Proof.
  intros Hl. unfold mount, runEffect. cbn [props]. rewrite Hl.
  rewrite updateTimer_timeRemaining.
  destruct (updateTimer_frame l
    (with_interval (Some l)
       (mkWorld p initialState t (t + Z.of_N gap) None [] [] [] [])))
    as (-> & -> & ->).
  cbn. auto.
Qed.

Lemma secondTicks_run (l : Z) (k : nat) :
  forall w, interval w = Some l ->
    let w' := run fdn iso (secondTicks k) w in
    props w' = props w /\
    now w' = now w + 1000 * Z.of_nat k /\
    interval w' = Some l /\
    (k <> O -> timeRemaining (st w') = countdown l (now w')).
Proof.
  induction k as [|k IH]; intros w Hi; cbv zeta.
  - cbn. repeat split; try lia; try assumption.
  - change (run fdn iso (secondTicks (S k)) w)
      with (run fdn iso (secondTicks k) (step fdn iso Tick (step fdn iso (Elapse 1000) w))).
    set (w1 := step fdn iso Tick (step fdn iso (Elapse 1000) w)).
    assert (H1 : props w1 = props w /\ now w1 = now w + 1000 /\
                 interval w1 = Some l /\
                 timeRemaining (st w1) = countdown l (now w1)).
    { subst w1. cbn [step elapse interval]. rewrite Hi.
      rewrite updateTimer_timeRemaining.
      destruct (updateTimer_frame l (elapse (Z.of_N 1000) w)) as (-> & -> & ->).
      cbn. auto. }
    destruct H1 as (P1 & N1 & I1 & T1).
    destruct (IH w1 I1) as (P2 & N2 & I2 & T2).
    repeat split.
    + congruence.
    + rewrite N2, N1. lia.
    + exact I2.
    + intros _. destruct k as [|k'].
      * cbn. exact T1.
      * apply T2. discriminate.
Qed.

(** After a mount with a lock and [k] exact one-second ticks the countdown
    is the one computed at the clock reading of the last update. *)
Lemma ticks_from_mount (p : Props) (t : Z) (gap : N) (l : Z) (k : nat) :
  lockedUntil p = Some l ->
  let w := run fdn iso (secondTicks k) (mount p t gap) in
  now w = t + Z.of_N gap + 1000 * Z.of_nat k /\
  timeRemaining (st w) = countdown l (now w).
Proof.
  intros Hl. cbv zeta.
  destruct (mount_locked p t gap l Hl) as (P0 & N0 & I0 & T0).
  destruct (secondTicks_run l k (mount p t gap) I0) as (_ & Nk & _ & Tk).
  split; [lia|].
  destruct k as [|k']; [cbn; rewrite T0, N0; reflexivity | apply Tk; discriminate].
Qed.

End Ticking.

(** ** The 65-second countdown *)

(** C2 (as stated, refuted): with the expiry exactly 65 seconds after the
    first timer update and the interval firing exactly once per second, the
    strings shown are "1m 5s" down to "0m 1s" and then the countdown is
    cleared at the expiry instant: "0m 0s" is never displayed. *)
Lemma C2_exact_ticks_never_show_zero_zero :
  let shown :=
    map (countdownAfter (sampleProps None (Some 65000) 3) 0 0) (seq 0 66) in
  nth 0 shown None = Some "1m 5s" /\
  nth 64 shown None = Some "0m 1s" /\
  nth 65 shown (Some "") = None /\
  ~ In (Some "0m 0s") shown.
Proof.
  cbv zeta. repeat split; try (vm_compute; reflexivity).
  intros H. vm_compute in H.
  repeat (destruct H as [H|H]; [discriminate H|]). exact H.
Qed.

(** C2 (amended): when the expiry is exactly 65 seconds after the first,
    synchronous timer update, the countdown is "1m 5s" at once; with the
    interval firing exactly once per second the string after the k-th tick
    (k up to 64) is [(65-k) div 60]"m" [(65-k) mod 60]"s", ending at
    "0m 1s", and the 65th tick clears it at the expiry instant; the string
    is only ever cleared at or after the expiry.  In general an update with
    remaining milliseconds diff > 0 shows floor(diff/60000) "m"
    floor((diff mod 60000)/1000) "s", one with diff <= 0 clears the string,
    and "0m 0s" is shown exactly by an update with 0 < diff < 1000. *)
Theorem C2_countdown_from_65_seconds
    (fdn : Z -> Z -> string) (iso : Z -> string)
    (p : Props) (t : Z) (gap : N) (l : Z)
    (Hlock : lockedUntil p = Some l)
    (H65 : l - (t + Z.of_N gap) = 65000) :
  let after k := run fdn iso (secondTicks k) (mount p t gap) in
  timeRemaining (st (mount p t gap)) = Some "1m 5s" /\
  (forall k, (k <= 64)%nat ->
     timeRemaining (st (after k)) =
       Some (numberToString ((65 - Z.of_nat k) / 60) ++ "m " ++
             numberToString ((65 - Z.of_nat k) mod 60) ++ "s") /\
     timeRemaining (st (after k)) <> Some "0m 0s") /\
  timeRemaining (st (after 64%nat)) = Some "0m 1s" /\
  timeRemaining (st (after 65%nat)) = None /\
  now (after 65%nat) = l /\
  (forall k, timeRemaining (st (after k)) = None -> l <= now (after k)) /\
  (forall until clock, 0 < until - clock ->
     countdown until clock =
       Some (numberToString ((until - clock) / 60000) ++ "m " ++
             numberToString (((until - clock) mod 60000) / 1000) ++ "s")) /\
  (forall until clock, until - clock <= 0 -> countdown until clock = None) /\
  (forall until clock,
     countdown until clock = Some "0m 0s" <-> 0 < until - clock < 1000).
Proof.
  cbv zeta.
  assert (Hk : forall k,
    now (run fdn iso (secondTicks k) (mount p t gap)) = l - 1000 * (65 - Z.of_nat k) /\
    timeRemaining (st (run fdn iso (secondTicks k) (mount p t gap))) =
      countdown l (l - 1000 * (65 - Z.of_nat k))).
  { intros k. destruct (ticks_from_mount fdn iso p t gap l k Hlock) as [N T].
    rewrite T, N. split; [lia | f_equal; lia]. }
  refine (conj _ (conj _ (conj _ (conj _ (conj _ (conj _ (conj _ (conj _ _)))))))).
  - destruct (Hk 0%nat) as [_ T]. cbn [secondTicks run fold_left] in T.
    rewrite T. rewrite (countdown_whole_seconds l _ 65); [reflexivity|lia|lia].
  - intros k Hle. destruct (Hk k) as [_ T]. rewrite T. split.
    + apply countdown_whole_seconds; lia.
    + intros E. apply countdown_zero_zero_iff in E. lia.
  - destruct (Hk 64%nat) as [_ T]. rewrite T.
    rewrite (countdown_whole_seconds l _ 1); [reflexivity|lia|lia].
  - destruct (Hk 65%nat) as [_ T]. rewrite T. apply countdown_expired. lia.
  - destruct (Hk 65%nat) as [N _]. rewrite N. lia.
  - intros k E. destruct (Hk k) as [N T]. rewrite T in E.
    apply countdown_None_iff in E. rewrite N. lia.
  - intros u c H. apply countdown_running. exact H.
  - intros u c H. apply countdown_expired. exact H.
  - intros u c. apply countdown_zero_zero_iff.
Qed.

Lemma C2_countdown_from_65_seconds_witness :
  timeRemaining (st (mount (sampleProps None (Some 65000) 3) 0 0)) = Some "1m 5s".
Proof.
  exact (proj1 (C2_countdown_from_65_seconds sampleDistance sampleISO
                  (sampleProps None (Some 65000) 3) 0 0 65000
                  eq_refl eq_refl)).
Defined.

(** ** The unlock handler, step by step *)

Section Handler.

Variable fdn : Z -> Z -> string.
Variable iso : Z -> string.

(** Up to the [await]: one log line, the busy flag, one remote call; the
    function then suspends. *)
Lemma handleUnlockAccount_start_eq (c : Captured) (w : World) :
  handleUnlockAccount_start iso c w =
    (None,
     let w1 := add_rpc (unlockRpc c)
                 (set_state (setIsUnlocking true)
                    (add_log (startLogEntry iso c (now w)) w)) in
     with_pending (pending w1 ++ [c]) w1).
Proof. reflexivity. Qed.

Lemma handleUnlockAccount_resume_ok (c : Captured) (w : World) :
  handleUnlockAccount_resume iso c RpcOk w =
    (Normal tt,
     set_state (setIsUnlocking false) (add_toast (successToast c) w)).
Proof. reflexivity. Qed.

Lemma handleUnlockAccount_resume_error (c : Captured) (e : JsError) (w : World) :
  handleUnlockAccount_resume iso c (RpcError e) w =
    (Normal tt,
     set_state (setIsUnlocking false)
       (add_toast (errorToast e)
          (add_log (errorLogEntry iso "Failed to unlock account:" c e (now w))
             (add_log (errorLogEntry iso "Error unlocking account:" c e (now w))
                w)))).
Proof. reflexivity. Qed.

Lemma handleUnlockAccount_resume_rejects (c : Captured) (e : JsError) (w : World) :
  handleUnlockAccount_resume iso c (RpcRejects e) w =
    (Normal tt,
     set_state (setIsUnlocking false)
       (add_toast (errorToast e)
          (add_log (errorLogEntry iso "Failed to unlock account:" c e (now w))
             w))).
Proof. reflexivity. Qed.

(** The part of the [try] block after the [await] throws exactly when the
    call failed, and then it throws the call's own error. *)
Lemma tryAfterAwait_throws_iff (c : Captured) (o : RpcOutcome) (w : World) (e : JsError) :
  fst (tryAfterAwait iso c o w) = Throw e <-> outcomeError o = Some e.
Proof.
  destruct o as [|e'|e']; cbn; split; intros H;
    try discriminate; try (injection H as ->; reflexivity).
Qed.

Lemma tryBeforeAwait_normal (c : Captured) (w : World) :
  fst (tryBeforeAwait iso c w) = Normal tt.
Proof. reflexivity. Qed.

(** Whatever the outcome, the resumed handler completes normally, adds one
    notification, no remote call, and clears the busy flag. *)
Lemma handleUnlockAccount_resume_effects (c : Captured) (o : RpcOutcome) (w : World) :
  let r := handleUnlockAccount_resume iso c o w in
  fst r = Normal tt /\
  toasts (snd r) =
    (toasts w ++ [match outcomeError o with
                  | None => successToast c
                  | Some e => errorToast e
                  end])%list /\
  rpcs (snd r) = rpcs w /\
  isUnlocking (st (snd r)) = false /\
  props (snd r) = props w /\
  pending (snd r) = pending w /\
  interval (snd r) = interval w /\
  now (snd r) = now w /\
  showResetDialog (st (snd r)) = showResetDialog (st w) /\
  timeRemaining (st (snd r)) = timeRemaining (st w).
Proof.
  cbv zeta.
  destruct o as [|e|e];
    [ rewrite handleUnlockAccount_resume_ok
    | rewrite handleUnlockAccount_resume_error
    | rewrite handleUnlockAccount_resume_rejects ];
    cbn [fst snd outcomeError];
    match goal with
    | |- context [set_state ?f ?x] =>
        destruct (set_state_frame f x) as (-> & -> & -> & -> & _ & -> & ->);
        rewrite (set_state_st f x)
    end; cbn; repeat split.
Qed.

Lemma handleUnlockAccount_start_effects (c : Captured) (w : World) :
  let r := handleUnlockAccount_start iso c w in
  fst r = None /\
  rpcs (snd r) = (rpcs w ++ [unlockRpc c])%list /\
  toasts (snd r) = toasts w /\
  pending (snd r) = (pending w ++ [c])%list /\
  isUnlocking (st (snd r)) = true /\
  props (snd r) = props w /\
  interval (snd r) = interval w /\
  now (snd r) = now w /\
  showResetDialog (st (snd r)) = showResetDialog (st w) /\
  timeRemaining (st (snd r)) = timeRemaining (st w).
Proof.
  cbv zeta. rewrite handleUnlockAccount_start_eq. cbv zeta. cbn [fst snd].
  set (w0 := add_log (startLogEntry iso c (now w)) w).
  cbn [with_pending add_rpc rpcs toasts pending st props interval now].
  destruct (set_state_frame (setIsUnlocking true) w0) as (-> & -> & -> & -> & _ & -> & ->).
  rewrite (set_state_st (setIsUnlocking true) w0).
  subst w0. cbn. repeat split.
Qed.

End Handler.

(** ** The lock badge and the clock *)

Section LockExpiry.

Variable fdn : Z -> Z -> string.
Variable iso : Z -> string.

Lemma render_lock_hidden (p : Props) (s : State) (t l : Z) :
  lockedUntil p = Some l -> l <= t ->
  v_lockBadge (render fdn p s t) = None /\
  v_unlockButton (render fdn p s t) = None /\
  lockShown (render fdn p s t) = false.
Proof.
  intros Hl Ht. unfold lockShown, render. cbn. rewrite Hl. cbn.
  destruct (Z.ltb_spec t l); [lia|]. auto.
Qed.

Lemma render_lock_shown (p : Props) (s : State) (t l : Z) :
  lockedUntil p = Some l -> t < l ->
  v_lockBadge (render fdn p s t) = Some (lockBadge (timeRemaining s)) /\
  v_unlockButton (render fdn p s t) = Some (unlockButton (isUnlocking s)) /\
  lockShown (render fdn p s t) = true.
Proof.
  intros Hl Ht. unfold lockShown, render. cbn. rewrite Hl. cbn.
  destruct (Z.ltb_spec t l); [|lia]. auto.
Qed.

Lemma lockInv_frame (p : Props) (l : Z) (w w' : World) :
  props w' = props w -> interval w' = interval w ->
  rendered_at w' = rendered_at w -> now w' = now w -> st w' = st w ->
  lockInv p l w -> lockInv p l w'.
Proof.
  unfold lockInv. intros -> -> -> -> ->. auto.
Qed.

Lemma lockInv_set_state (p : Props) (l : Z) (f : State -> State) (w : World) :
  (forall s, timeRemaining (f s) = timeRemaining s) ->
  lockInv p l w -> lockInv p l (set_state f w).
Proof.
  intros Hf (Hp & Hi & Hr & Ht). unfold lockInv, set_state.
  destruct (State_eq_dec (f (st w)) (st w)) as [E|E]; cbn.
  - auto.
  - repeat split; auto; try lia.
    intros Hlt. rewrite Hf. apply Ht. lia.
Qed.

Lemma lockInv_updateTimer (p : Props) (l : Z) (w : World) :
  lockInv p l w -> lockInv p l (updateTimer l w).
Proof.
  intros (Hp & Hi & Hr & Ht). unfold lockInv, updateTimer, set_state.
  destruct (State_eq_dec (setTimeRemaining (countdown l (now w)) (st w)) (st w))
    as [E|E]; cbn.
  - auto.
  - repeat split; auto; try lia.
    intros Hlt Hnone. apply countdown_None_iff in Hnone. lia.
Qed.

Lemma lockInv_step (p : Props) (l : Z) (e : Event) (w : World) :
  isPropsChange e = false ->
  lockInv p l w -> lockInv p l (step fdn iso e w).
Proof.
  intros He Hinv. destruct e as [ms| | |i o| |b|p' gap]; cbn [step]; try discriminate.
  - destruct Hinv as (Hp & Hi & Hr & Ht). unfold lockInv, elapse; cbn.
    repeat split; auto. lia.
  - destruct Hinv as (Hp & Hi & Hr & Ht). rewrite Hi.
    apply lockInv_updateTimer. unfold lockInv; auto.
  - destruct (v_unlockButton (view fdn w)) as [b|]; [|exact Hinv].
    destruct (button_disabled b); [exact Hinv|].
    rewrite handleUnlockAccount_start_eq. cbv zeta. cbn [snd].
    match goal with
    | |- lockInv _ _ (with_pending _ (add_rpc _ ?x)) =>
        apply (lockInv_frame p l x); try reflexivity
    end.
    apply lockInv_set_state; [reflexivity|].
    eapply lockInv_frame; [..|exact Hinv]; reflexivity.
  - destruct (nth_error (pending w) i) as [c|]; [|exact Hinv].
    assert (H0 : lockInv p l (with_pending (remove_nth i (pending w)) w))
      by (eapply lockInv_frame; [..|exact Hinv]; reflexivity).
    destruct o as [|e|e];
      [ rewrite handleUnlockAccount_resume_ok
      | rewrite handleUnlockAccount_resume_error
      | rewrite handleUnlockAccount_resume_rejects ];
      cbn [snd]; (apply lockInv_set_state; [reflexivity|]);
      (eapply lockInv_frame; [..|exact H0]; reflexivity).
  - apply lockInv_set_state; [reflexivity|exact Hinv].
  - apply lockInv_set_state; [reflexivity|exact Hinv].
Qed.

Lemma lockInv_run (p : Props) (l : Z) (es : list Event) :
  forallb (fun e => negb (isPropsChange e)) es = true ->
  forall w, lockInv p l w -> lockInv p l (run fdn iso es w).
Proof.
  induction es as [|e es IH]; intros Hes w Hinv; [exact Hinv|].
  cbn in Hes. apply andb_true_iff in Hes. destruct Hes as [He Hes].
  apply negb_true_iff in He.
  change (run fdn iso (e :: es) w) with (run fdn iso es (step fdn iso e w)).
  apply IH; [exact Hes|]. apply lockInv_step; assumption.
Qed.

(** The mount establishes the invariant unless the expiry falls after the
    first render and not after the effect's first update. *)
Lemma lockInv_mount (p : Props) (t : Z) (gap : N) (l : Z) :
  lockedUntil p = Some l ->
  t + Z.of_N gap < l \/ l <= t ->
  lockInv p l (mount p t gap).
Proof.
  intros Hl Hcase.
  destruct (mount_locked p t gap l Hl) as (Hp & Hn & Hi & Ht).
  unfold lockInv. rewrite Hp, Hn, Hi, Ht.
  assert (Hr : rendered_at (mount p t gap) = t \/
               rendered_at (mount p t gap) = t + Z.of_N gap).
  { unfold mount, runEffect. cbn [props]. rewrite Hl. unfold updateTimer.
    match goal with
    | |- context [set_state ?f ?x] =>
        destruct (set_state_rendered_at f x) as [E|[_ E]]; rewrite E; cbn; auto
    end. }
  repeat split; auto; try lia.
  intros Hlt Hnone. apply countdown_None_iff in Hnone. lia.
Qed.

(** A tick at or after the expiry takes the lock off the screen. *)
Lemma tick_after_expiry_hides_lock (p : Props) (l : Z) (w : World) :
  lockedUntil p = Some l ->
  lockInv p l w -> l <= now w ->
  l <= rendered_at (step fdn iso Tick w) /\
  lockShown (view fdn (step fdn iso Tick w)) = false.
Proof.
  intros Hl Hinv Hnow.
  assert (Hr : l <= rendered_at (step fdn iso Tick w)).
  { destruct Hinv as (Hp & Hi & Hr & Ht). cbn [step]. rewrite Hi.
    unfold updateTimer, set_state.
    rewrite (countdown_expired l (now w)) by lia.
    destruct (State_eq_dec (setTimeRemaining None (st w)) (st w)) as [E|E]; cbn.
    - destruct (Z_lt_le_dec (rendered_at w) l) as [Hlt|Hle]; [|exact Hle].
      exfalso. apply (Ht Hlt). rewrite <- E. reflexivity.
    - exact Hnow. }
  split; [exact Hr|].
  pose proof (lockInv_step p l Tick w eq_refl Hinv) as (Hp' & _).
  unfold view. rewrite Hp'.
  apply (render_lock_hidden p _ _ l Hl Hr).
Qed.

(** Once a render at or after the expiry is on screen, every later screen
    is one too. *)
Lemma hidden_lock_stays_hidden (p : Props) (l : Z) (es : list Event) :
  lockedUntil p = Some l ->
  forallb (fun e => negb (isPropsChange e)) es = true ->
  forall w, lockInv p l w -> l <= rendered_at w ->
    lockShown (view fdn (run fdn iso es w)) = false.
Proof.
  intros Hl. induction es as [|e es IH]; intros Hes w Hinv Hr.
  - cbn. unfold view. destruct Hinv as (Hp & _). rewrite Hp.
    apply (render_lock_hidden p _ _ l Hl Hr).
  - cbn in Hes. apply andb_true_iff in Hes. destruct Hes as [He Hes].
    apply negb_true_iff in He.
    change (run fdn iso (e :: es) w) with (run fdn iso es (step fdn iso e w)).
    apply IH; [exact Hes | apply lockInv_step; assumption |].
    destruct Hinv as (Hp & Hi & Hrn & Ht).
    destruct e as [ms| | |i o| |b|p' gap]; cbn [step]; try discriminate.
    + cbn. exact Hr.
    + rewrite Hi. unfold updateTimer.
      match goal with
      | |- context [set_state ?f ?x] =>
          destruct (set_state_rendered_at f x) as [E|[_ E]]; rewrite E; lia
      end.
    + destruct (v_unlockButton (view fdn w)) as [b|]; [|exact Hr].
      destruct (button_disabled b); [exact Hr|].
      rewrite handleUnlockAccount_start_eq. cbv zeta. cbn [snd].
      cbn [with_pending add_rpc rendered_at].
      match goal with
      | |- context [set_state ?f ?x] =>
          destruct (set_state_rendered_at f x) as [E|[_ E]]; rewrite E; cbn; lia
      end.
    + destruct (nth_error (pending w) i) as [c|]; [|exact Hr].
      destruct o as [|e|e];
        [ rewrite handleUnlockAccount_resume_ok
        | rewrite handleUnlockAccount_resume_error
        | rewrite handleUnlockAccount_resume_rejects ];
        cbn [snd];
        match goal with
        | |- context [set_state ?f ?x] =>
            destruct (set_state_rendered_at f x) as [E|[_ E]]; rewrite E; cbn; lia
        end.
    + match goal with
      | |- context [set_state ?f ?x] =>
          destruct (set_state_rendered_at f x) as [E|[_ E]]; rewrite E; lia
      end.
    + match goal with
      | |- context [set_state ?f ?x] =>
          destruct (set_state_rendered_at f x) as [E|[_ E]]; rewrite E; lia
      end.
Qed.

(** X11: whenever the effect's first update ran before the expiry (or the
    mount itself came after it), the first tick at or after the expiry
    removes the lock badge and the unlock button, and they stay away
    through all later events, with the props untouched. *)
Lemma lock_disappears_after_expiry
    (p : Props) (t : Z) (gap : N) (l : Z) (es es' : list Event) :
  lockedUntil p = Some l ->
  t + Z.of_N gap < l \/ l <= t ->
  forallb (fun e => negb (isPropsChange e)) es = true ->
  forallb (fun e => negb (isPropsChange e)) es' = true ->
  let w := run fdn iso es (mount p t gap) in
  l <= now w ->
  let w' := run fdn iso es' (step fdn iso Tick w) in
  props w' = p /\ lockShown (view fdn w') = false.
Proof.
  intros Hl Hcase Hes Hes' w Hnow w'.
  assert (Hinv : lockInv p l w)
    by (apply lockInv_run; [exact Hes | apply lockInv_mount; assumption]).
  destruct (tick_after_expiry_hides_lock p l w Hl Hinv Hnow) as [Hr _].
  assert (Hinv1 : lockInv p l (step fdn iso Tick w))
    by (apply lockInv_step; [reflexivity | exact Hinv]).
  split.
  - pose proof (lockInv_run p l es' Hes' _ Hinv1) as (Hp & _). exact Hp.
  - apply hidden_lock_stays_hidden with (p := p) (l := l); assumption.
Qed.

End LockExpiry.

(** ** When the expiry falls between the first render and the effect *)

Section StaleLock.

Variable fdn : Z -> Z -> string.
Variable iso : Z -> string.

(** With the countdown already null, an update at or after the expiry sets
    it to null again: nothing changes and nothing is re-rendered. *)
Lemma tick_after_expiry_bails_out (l : Z) (w : World) :
  interval w = Some l -> l <= now w -> timeRemaining (st w) = None ->
  step fdn iso Tick w = w.
Proof.
  intros Hi Hn Ht. cbn [step]. rewrite Hi. unfold updateTimer, set_state.
  rewrite (countdown_expired l (now w)) by lia.
  destruct (State_eq_dec (setTimeRemaining None (st w)) (st w)) as [E|E];
    [reflexivity|].
  exfalso. apply E. destruct (st w); cbn in *. subst. reflexivity.
Qed.

Lemma secondTicks_bail_out (l : Z) (k : nat) :
  forall w, interval w = Some l -> l <= now w -> timeRemaining (st w) = None ->
    run fdn iso (secondTicks k) w = elapse (1000 * Z.of_nat k) w.
Proof.
  induction k as [|k IH]; intros w Hi Hn Ht.
  - cbn. unfold elapse. destruct w; cbn. f_equal. lia.
  - change (run fdn iso (secondTicks (S k)) w)
      with (run fdn iso (secondTicks k)
              (step fdn iso Tick (step fdn iso (Elapse 1000) w))).
    rewrite (tick_after_expiry_bails_out l);
      [| exact Hi | cbn; lia | exact Ht].
    rewrite IH; [| exact Hi | cbn; lia | exact Ht].
    rewrite Nat2Z.inj_succ. cbn [step]. unfold elapse.
    cbn [props st rendered_at now interval pending console toasts rpcs].
    change (Z.of_N 1000) with 1000. f_equal. lia.
Qed.

End StaleLock.

(** C3 (the code falls short of it): when the expiry passes between the
    first render and the effect's first timer update, that update and every
    later tick set the already-null countdown to null, so nothing is ever
    re-rendered: with unchanged props, and however many seconds tick by
    after the expiry, the screen keeps the badge "Locked" and an enabled
    "Unlock" button. *)
Theorem C3_lock_survives_expiry_before_first_update
    (fdn : Z -> Z -> string) (iso : Z -> string)
    (p : Props) (t : Z) (gap : N) (l : Z) (k : nat)
    (Hlock : lockedUntil p = Some l)
    (Hrace : t < l <= t + Z.of_N gap) :
  let w := run fdn iso (secondTicks k) (mount p t gap) in
  props w = p /\
  now w = t + Z.of_N gap + 1000 * Z.of_nat k /\
  l <= now w /\
  v_lockBadge (view fdn w) = Some (mkBadge "bg-red-500/10 text-red-500" Lock "Locked") /\
  v_unlockButton (view fdn w) = Some (mkButton false Lock "Unlock") /\
  lockShown (view fdn w) = true.
Proof.
  cbv zeta.
  assert (Hm : mount p t gap =
               mkWorld p initialState t (t + Z.of_N gap) (Some l) [] [] [] []).
  { unfold mount, runEffect. cbn [props]. rewrite Hlock.
    unfold updateTimer, set_state. cbn [now with_interval].
    rewrite (countdown_expired l (t + Z.of_N gap)) by lia.
    reflexivity. }
  rewrite Hm.
  rewrite (secondTicks_bail_out fdn iso l k);
    [| reflexivity | cbn [now]; lia | reflexivity].
  unfold view, elapse; cbn [props st rendered_at now].
  destruct (render_lock_shown fdn p initialState t l Hlock (proj1 Hrace))
    as (Hb & Hu & Hs).
  rewrite Hb, Hu, Hs. repeat split. lia.
Qed.

Lemma C3_lock_survives_expiry_before_first_update_witness :
  let w := run sampleDistance sampleISO (secondTicks 3)
             (mount (sampleProps None (Some 1000) 5) 999 1) in
  props w = sampleProps None (Some 1000) 5 /\
  now w = 999 + Z.of_N 1 + 1000 * Z.of_nat 3 /\
  1000 <= now w /\
  v_lockBadge (view sampleDistance w) =
    Some (mkBadge "bg-red-500/10 text-red-500" Lock "Locked") /\
  v_unlockButton (view sampleDistance w) = Some (mkButton false Lock "Unlock") /\
  lockShown (view sampleDistance w) = true.
Proof.
  apply (C3_lock_survives_expiry_before_first_update sampleDistance sampleISO
           (sampleProps None (Some 1000) 5) 999 1 1000 3).
  - reflexivity.
  - cbn. lia.
Defined.

(** ** The unlock action *)

Section Unlock.

Variable fdn : Z -> Z -> string.
Variable iso : Z -> string.

Lemma unlockButton_of_render (p : Props) (s : State) (t : Z) (b : Button) :
  v_unlockButton (render fdn p s t) = Some b -> b = unlockButton (isUnlocking s).
Proof.
  unfold render; cbn. destruct (lockActive (lockedUntil p) t); congruence.
Qed.

Lemma busy_button (w : World) (b : Button) :
  isUnlocking (st w) = true ->
  v_unlockButton (view fdn w) = Some b ->
  button_disabled b = true /\ button_label b = "Unlocking...".
Proof.
  intros Hu Hb. apply unlockButton_of_render in Hb. subst b. rewrite Hu.
  split; reflexivity.
Qed.

Lemma idle_button (w : World) (b : Button) :
  isUnlocking (st w) = false ->
  v_unlockButton (view fdn w) = Some b ->
  button_disabled b = false /\ button_label b = "Unlock".
Proof.
  intros Hu Hb. apply unlockButton_of_render in Hb. subst b. rewrite Hu.
  split; reflexivity.
Qed.

Lemma runEffect_st (w : World) :
  showResetDialog (st (runEffect w)) = showResetDialog (st w) /\
  isUnlocking (st (runEffect w)) = isUnlocking (st w).
Proof.
  unfold runEffect. destruct (lockedUntil (props w)); [|auto].
  unfold updateTimer. rewrite set_state_st. cbn. auto.
Qed.

(** While the call is pending and nothing settles, the busy flag stays. *)
Lemma busy_until_settled (e : Event) (w : World) :
  isSettle e = false -> isUnlocking (st w) = true ->
  isUnlocking (st (step fdn iso e w)) = true.
Proof.
  intros He Hu. destruct e as [ms| | |i o| |b|p' gap]; cbn [step]; try discriminate.
  - exact Hu.
  - destruct (interval w); [|exact Hu].
    unfold updateTimer. rewrite set_state_st. exact Hu.
  - destruct (v_unlockButton (view fdn w)) as [b|] eqn:Hb; [|exact Hu].
    destruct (busy_button w b Hu Hb) as [-> _]. exact Hu.
  - rewrite set_state_st. exact Hu.
  - rewrite set_state_st. exact Hu.
  - unfold changeProps.
    destruct (depsChanged (lockedUntil (props w)) (lockedUntil p')); [|exact Hu].
    destruct (runEffect_st
      (cleanupEffect
         (mkWorld p' (st w) (now w) (now w + Z.of_N gap) (interval w)
                  (pending w) (console w) (toasts w) (rpcs w)))) as [_ ->].
    exact Hu.
Qed.

Lemma busy_along_run (es : list Event) :
  forallb (fun e => negb (isSettle e)) es = true ->
  forall w, isUnlocking (st w) = true ->
    isUnlocking (st (run fdn iso es w)) = true.
Proof.
  induction es as [|e es IH]; intros Hes w Hu; [exact Hu|].
  cbn in Hes. apply andb_true_iff in Hes. destruct Hes as [He Hes].
  apply negb_true_iff in He.
  change (run fdn iso (e :: es) w) with (run fdn iso es (step fdn iso e w)).
  apply IH; [exact Hes|]. apply busy_until_settled; assumption.
Qed.

Lemma step_click_unlock (w : World) (b : Button) :
  v_unlockButton (view fdn w) = Some b -> button_disabled b = false ->
  step fdn iso ClickUnlock w =
    snd (handleUnlockAccount_start iso (capture (props w)) w).
Proof. intros Hb Hd. cbn [step]. rewrite Hb, Hd. reflexivity. Qed.

Lemma step_settle (w : World) (i : nat) (o : RpcOutcome) (c : Captured) :
  nth_error (pending w) i = Some c ->
  step fdn iso (RpcSettles i o) w =
    snd (handleUnlockAccount_resume iso c o
           (with_pending (remove_nth i (pending w)) w)).
Proof. intros Hc. cbn [step]. rewrite Hc. reflexivity. Qed.

(** The unlock button is rendered exactly under the lock guard, and then
    it is the one for the current busy flag. *)
Lemma unlockButton_rendered (p : Props) (s : State) (t : Z) :
  v_unlockButton (render fdn p s t) =
    if lockActive (lockedUntil p) t
    then Some (mkButton (isUnlocking s) Lock
                 (if isUnlocking s then "Unlocking..." else "Unlock"))
    else None.
Proof. reflexivity. Qed.

Lemma set_state_changed (f : State -> State) (w : World) :
  f (st w) <> st w -> rendered_at (set_state f w) = now w.
Proof.
  intros Hne. unfold set_state.
  destruct (State_eq_dec (f (st w)) (st w)); [contradiction|reflexivity].
Qed.

Lemma setIsUnlocking_changes (b : bool) (s : State) :
  isUnlocking s = negb b -> setIsUnlocking b s <> s.
Proof.
  intros Hs E. apply (f_equal isUnlocking) in E. cbn in E.
  rewrite Hs in E. destruct b; discriminate.
Qed.

(** A click that goes through re-renders at the clock reading of the
    click. *)
Lemma start_rerenders (c : Captured) (w : World) :
  isUnlocking (st w) = false ->
  rendered_at (snd (handleUnlockAccount_start iso c w)) = now w.
Proof.
  intros Hu. rewrite handleUnlockAccount_start_eq. cbv zeta.
  cbn [snd with_pending add_rpc rendered_at].
  rewrite set_state_changed; [reflexivity|].
  apply setIsUnlocking_changes. exact Hu.
Qed.

(** Settling a call while the busy flag is set re-renders at the clock
    reading of the settling. *)
Lemma resume_rerenders (c : Captured) (o : RpcOutcome) (w : World) :
  isUnlocking (st w) = true ->
  rendered_at (snd (handleUnlockAccount_resume iso c o w)) = now w.
Proof.
  intros Hu.
  destruct o as [|e|e];
    [ rewrite handleUnlockAccount_resume_ok
    | rewrite handleUnlockAccount_resume_error
    | rewrite handleUnlockAccount_resume_rejects ];
    cbn [snd];
    (rewrite set_state_changed;
       [reflexivity | apply setIsUnlocking_changes; exact Hu]).
Qed.

End Unlock.

(** C4: for every invocation of the unlock action (a click on the visible,
    enabled button): the remote procedure "reset_failed_login" is called
    with the component's member number as its single parameter; the click
    re-renders at once, and from then until the call settles the busy flag
    is set and every screen that passes the lock guard carries the unlock
    button disabled and labelled "Unlocking..." (the guard of line 159 is
    the only thing that can take the button off the screen); when the call
    settles without error a success notification naming the member is
    shown; when it returns or throws an error an error notification with
    that error's message is shown; in both outcomes the flag is cleared
    and the screen is rendered anew, carrying under the same guard the
    button enabled and labelled "Unlock". *)
Theorem C4_unlock_action
    (fdn : Z -> Z -> string) (iso : Z -> string) (w : World) (b : Button)
    (Hshown : v_unlockButton (view fdn w) = Some b)
    (Henabled : button_disabled b = false) :
  let c := capture (props w) in
  let w1 := step fdn iso ClickUnlock w in
  rpcs w1 =
    (rpcs w ++ [mkRpc "reset_failed_login"
                  [("member_number", memberNumber (props w))]])%list /\
  pending w1 = (pending w ++ [c])%list /\
  toasts w1 = toasts w /\
  rendered_at w1 = now w /\
  v_unlockButton (view fdn w1) =
    (if lockActive (lockedUntil (props w)) (now w)
     then Some (mkButton true Lock "Unlocking...") else None) /\
  (forall es, forallb (fun e => negb (isSettle e)) es = true ->
     let w2 := run fdn iso es w1 in
     isUnlocking (st w2) = true /\
     v_unlockButton (view fdn w2) =
       (if lockActive (lockedUntil (props w2)) (rendered_at w2)
        then Some (mkButton true Lock "Unlocking...") else None) /\
     forall b2, v_unlockButton (view fdn w2) = Some b2 ->
       button_disabled b2 = true /\ button_label b2 = "Unlocking...") /\
  (forall w' i o, nth_error (pending w') i = Some c ->
     let w3 := step fdn iso (RpcSettles i o) w' in
     toasts w3 =
       (toasts w' ++
        [match o with
         | RpcOk =>
             mkToast ToastSuccess "Account has been unlocked"
               ("Successfully unlocked account for " ++ memberName (props w))
         | RpcError e | RpcRejects e =>
             mkToast ToastError "Failed to unlock account" (message e)
         end])%list /\
     isUnlocking (st w3) = false /\
     (isUnlocking (st w') = true -> rendered_at w3 = now w') /\
     v_unlockButton (view fdn w3) =
       (if lockActive (lockedUntil (props w')) (rendered_at w3)
        then Some (mkButton false Lock "Unlock") else None) /\
     forall b3, v_unlockButton (view fdn w3) = Some b3 ->
       button_disabled b3 = false /\ button_label b3 = "Unlock").
Proof.
  cbv zeta.
  assert (Hidle : isUnlocking (st w) = false).
  { pose proof (unlockButton_of_render fdn _ _ _ b Hshown) as Eb.
    rewrite Eb in Henabled. exact Henabled. }
  rewrite (step_click_unlock fdn iso w b Hshown Henabled).
  destruct (handleUnlockAccount_start_effects iso (capture (props w)) w)
    as (_ & Hr & Ht & Hp & Hu & Hprops & _).
  pose proof (start_rerenders iso (capture (props w)) w Hidle) as Hrender.
  refine (conj Hr (conj Hp (conj Ht (conj Hrender (conj _ (conj _ _)))))).
  - unfold view. rewrite unlockButton_rendered, Hu, Hprops, Hrender. reflexivity.
  - intros es Hes.
    pose proof (busy_along_run fdn iso es Hes _ Hu) as Hbusy.
    split; [exact Hbusy|]. split.
    + unfold view. rewrite unlockButton_rendered, Hbusy. reflexivity.
    + intros b2. apply busy_button. exact Hbusy.
  - intros w' i o Hc. rewrite (step_settle fdn iso w' i o _ Hc).
    destruct (handleUnlockAccount_resume_effects iso (capture (props w)) o
                (with_pending (remove_nth i (pending w')) w'))
      as (_ & Ht' & _ & Hu' & Hp' & _).
    split; [|split; [|split; [|split]]].
    + rewrite Ht'. cbn [with_pending toasts]. destruct o; reflexivity.
    + exact Hu'.
    + intros Hbusy.
      apply (resume_rerenders iso (capture (props w)) o
               (with_pending (remove_nth i (pending w')) w')).
      exact Hbusy.
    + unfold view. rewrite unlockButton_rendered, Hu', Hp'. reflexivity.
    + intros b3. apply idle_button. exact Hu'.
Qed.

Lemma C4_unlock_action_witness :
  let w := mount (sampleProps None (Some 65000) 5) 0 0 in
  let w1 := step sampleDistance sampleISO ClickUnlock w in
  rpcs w1 = [mkRpc "reset_failed_login" [("member_number", "TM10003")]] /\
  v_unlockButton (view sampleDistance w1) =
    Some (mkButton true Lock "Unlocking...").
Proof.
  cbv zeta.
  pose proof (C4_unlock_action sampleDistance sampleISO
                (mount (sampleProps None (Some 65000) 5) 0 0)
                (mkButton false Lock "Unlock") eq_refl eq_refl)
    as (Hr & _ & _ & _ & Hb & _).
  split; [exact Hr | exact Hb].
Defined.

Example unlock_round_trip_failure :
  let w0 := mount (sampleProps None (Some 65000) 5) 0 0 in
  let w1 := step sampleDistance sampleISO ClickUnlock w0 in
  let w2 := step sampleDistance sampleISO
              (RpcSettles 0 (RpcError (mkError "permission denied"))) w1 in
  v_unlockButton (view sampleDistance w1) = Some (mkButton true Lock "Unlocking...") /\
  v_unlockButton (view sampleDistance w2) = Some (mkButton false Lock "Unlock") /\
  toasts w2 = [mkToast ToastError "Failed to unlock account" "permission denied"] /\
  map log_label (console w2) =
    ["Unlocking account for member:"; "Error unlocking account:";
     "Failed to unlock account:"] /\
  pending w2 = [].
Proof. vm_compute. repeat split. Qed.

(** C7: in every execution of the unlock action the only step that can
    throw is the awaited remote call (the code before the await completes
    normally; the code after it throws exactly when the call returned or
    threw an error); such a failure is caught in the handler, which then
    completes normally with exactly one error notification carrying the
    error's message, so nothing is re-thrown; and one trigger issues
    exactly one remote call, the settling of it none (no retry). *)
Theorem C7_unlock_failure_is_contained
    (fdn : Z -> Z -> string) (iso : Z -> string)
    (c : Captured) (o : RpcOutcome) (w w' : World) :
  fst (tryBeforeAwait iso c w) = Normal tt /\
  fst (handleUnlockAccount_start iso c w) = None /\
  rpcs (snd (handleUnlockAccount_start iso c w)) = (rpcs w ++ [unlockRpc c])%list /\
  (forall e, fst (tryAfterAwait iso c o w') = Throw e <-> outcomeError o = Some e) /\
  fst (handleUnlockAccount_resume iso c o w') = Normal tt /\
  rpcs (snd (handleUnlockAccount_resume iso c o w')) = rpcs w' /\
  (forall e, outcomeError o = Some e ->
     toasts (snd (handleUnlockAccount_resume iso c o w')) =
       (toasts w' ++ [mkToast ToastError "Failed to unlock account" (message e)])%list) /\
  (forall ev, (List.length (rpcs (step fdn iso ev w)) <= S (List.length (rpcs w)))%nat) /\
  (forall i, rpcs (step fdn iso (RpcSettles i o) w) = rpcs w).
Proof.
  destruct (handleUnlockAccount_start_effects iso c w) as (Hs & Hr & _).
  destruct (handleUnlockAccount_resume_effects iso c o w')
    as (Hn & Ht & Hr' & _).
  assert (Hsettle : forall i o0, rpcs (step fdn iso (RpcSettles i o0) w) = rpcs w).
  { intros i o0. cbn [step]. destruct (nth_error (pending w) i) as [c0|]; [|reflexivity].
    destruct (handleUnlockAccount_resume_effects iso c0 o0
                (with_pending (remove_nth i (pending w)) w))
      as (_ & _ & -> & _).
    reflexivity. }
  refine (conj (tryBeforeAwait_normal iso c w)
           (conj Hs (conj Hr (conj _ (conj Hn (conj Hr' (conj _ (conj _ _)))))))).
  - intros e. apply tryAfterAwait_throws_iff.
  - intros e He. rewrite Ht, He. reflexivity.
  - intros ev. destruct ev as [ms| | |i o0| |b|p' gap];
      [cbn [step]|cbn [step]|cbn [step]| |cbn [step]|cbn [step]|cbn [step]].
    + cbn. lia.
    + destruct (interval w) as [l|]; [|lia].
      unfold updateTimer.
      destruct (set_state_frame (setTimeRemaining (countdown l (now w))) w)
        as (_ & _ & _ & _ & _ & _ & ->). lia.
    + destruct (v_unlockButton (view fdn w)) as [b|]; [|lia].
      destruct (button_disabled b); [lia|].
      destruct (handleUnlockAccount_start_effects iso (capture (props w)) w)
        as (_ & -> & _).
      rewrite length_app. cbn. lia.
    + rewrite Hsettle. lia.
    + destruct (set_state_frame (setShowResetDialog true) w)
        as (_ & _ & _ & _ & _ & _ & ->). lia.
    + destruct (set_state_frame (setShowResetDialog b) w)
        as (_ & _ & _ & _ & _ & _ & ->). lia.
    + unfold changeProps.
      destruct (depsChanged (lockedUntil (props w)) (lockedUntil p')); [|cbn; lia].
      unfold runEffect, cleanupEffect. cbn [props with_interval].
      destruct (lockedUntil p') as [l|]; [|cbn; lia].
      unfold updateTimer.
      match goal with
      | |- context [set_state ?f ?x] =>
          destruct (set_state_frame f x) as (_ & _ & _ & _ & _ & _ & ->)
      end. cbn. lia.
  - intros i. apply Hsettle.
Qed.

(** ** The reset dialog *)

Section Dialog.

Variable fdn : Z -> Z -> string.
Variable iso : Z -> string.

(** Only the two dialog events write the visibility flag. *)
Lemma step_showResetDialog (e : Event) (w : World) :
  showResetDialog (st (step fdn iso e w)) =
    match e with
    | ClickResetPassword => true
    | DialogOpenChange open => open
    | _ => showResetDialog (st w)
    end.
Proof.
  destruct e as [ms| | |i o| |b|p' gap]; cbn [step].
  - reflexivity.
  - destruct (interval w); [|reflexivity].
    unfold updateTimer. rewrite set_state_st. reflexivity.
  - destruct (v_unlockButton (view fdn w)) as [b|]; [|reflexivity].
    destruct (button_disabled b); [reflexivity|].
    destruct (handleUnlockAccount_start_effects iso (capture (props w)) w)
      as (_ & _ & _ & _ & _ & _ & _ & _ & -> & _).
    reflexivity.
  - destruct (nth_error (pending w) i) as [c|]; [|reflexivity].
    destruct (handleUnlockAccount_resume_effects iso c o
                (with_pending (remove_nth i (pending w)) w))
      as (_ & _ & _ & _ & _ & _ & _ & _ & -> & _).
    reflexivity.
  - rewrite set_state_st. reflexivity.
  - rewrite set_state_st. reflexivity.
  - unfold changeProps.
    destruct (depsChanged (lockedUntil (props w)) (lockedUntil p')); [|reflexivity].
    destruct (runEffect_st
      (cleanupEffect
         (mkWorld p' (st w) (now w) (now w + Z.of_N gap) (interval w)
                  (pending w) (console w) (toasts w) (rpcs w)))) as [-> _].
    reflexivity.
Qed.

Lemma mount_showResetDialog (p : Props) (t : Z) (gap : N) :
  showResetDialog (st (mount p t gap)) = false.
Proof.
  unfold mount.
  destruct (runEffect_st (mkWorld p initialState t (t + Z.of_N gap) None [] [] [] []))
    as [-> _].
  reflexivity.
Qed.

End Dialog.

(** C8: the dialog visibility has the two states closed ([false]) and open
    ([true]); it starts closed; with the dialog calling its callback only
    to close, a step from closed to open is the "Reset Password" click, a
    step from open to closed is the dialog's close callback, and no other
    event of the component changes the state; the click always opens, the
    callback always closes, and the dialog is rendered with that state. *)
Theorem C8_dialog_state_machine
    (fdn : Z -> Z -> string) (iso : Z -> string)
    (p : Props) (t : Z) (gap : N) (e : Event) (w : World)
    (Hdialog : dialogOnlyCloses e = true) :
  (forall s : bool, s = false \/ s = true) /\
  showResetDialog initialState = false /\
  showResetDialog (st (mount p t gap)) = false /\
  (showResetDialog (st w) = false ->
   showResetDialog (st (step fdn iso e w)) = true -> e = ClickResetPassword) /\
  (showResetDialog (st w) = true ->
   showResetDialog (st (step fdn iso e w)) = false -> e = DialogOpenChange false) /\
  (e <> ClickResetPassword -> e <> DialogOpenChange false ->
   showResetDialog (st (step fdn iso e w)) = showResetDialog (st w)) /\
  showResetDialog (st (step fdn iso ClickResetPassword w)) = true /\
  showResetDialog (st (step fdn iso (DialogOpenChange false) w)) = false /\
  dlg_open (v_dialog (view fdn (step fdn iso e w))) =
    showResetDialog (st (step fdn iso e w)).
Proof.
  refine (conj _ (conj eq_refl (conj (mount_showResetDialog p t gap)
           (conj _ (conj _ (conj _ (conj _ (conj _ eq_refl)))))))).
  - intros [|]; auto.
  - rewrite step_showResetDialog.
    destruct e as [ms| | |i o| |b|p' gap']; cbn in Hdialog; intros;
      try congruence; destruct b; cbn in *; congruence.
  - rewrite step_showResetDialog.
    destruct e as [ms| | |i o| |b|p' gap']; cbn in Hdialog; intros;
      try congruence; destruct b; cbn in *; congruence.
  - rewrite step_showResetDialog.
    destruct e as [ms| | |i o| |b|p' gap']; cbn in Hdialog; intros;
      try congruence; destruct b; cbn in *; congruence.
  - apply step_showResetDialog.
  - apply step_showResetDialog.
Qed.

Lemma C8_dialog_state_machine_witness :
  showResetDialog
    (st (step sampleDistance sampleISO ClickResetPassword
           (mount (sampleProps None None 0) 0 0))) = true.
Proof.
  exact (proj1 (proj2 (proj2 (proj2 (proj2 (proj2 (proj2
    (C8_dialog_state_machine sampleDistance sampleISO
       (sampleProps None None 0) 0 0 ClickResetPassword
       (mount (sampleProps None None 0) 0 0) eq_refl)))))))).
Defined.

(** ** The member id is never read *)

Section MemberId.

Variable fdn : Z -> Z -> string.
Variable iso : Z -> string.
Variable f : string -> string.

Lemma set_state_withMemberId (g : State -> State) (w : World) :
  set_state g (worldWithMemberId f w) = worldWithMemberId f (set_state g w).
Proof.
  unfold set_state, worldWithMemberId. cbn [st props now rendered_at interval
    pending console toasts rpcs].
  destruct (State_eq_dec (g (st w)) (st w)); reflexivity.
Qed.

Lemma view_withMemberId (w : World) :
  view fdn (worldWithMemberId f w) = view fdn w.
Proof. reflexivity. Qed.

Lemma runEffect_withMemberId (w : World) :
  runEffect (worldWithMemberId f w) = worldWithMemberId f (runEffect w).
Proof.
  unfold runEffect. cbn [worldWithMemberId props withMemberId lockedUntil].
  destruct (lockedUntil (props w)) as [l|]; [|reflexivity].
  unfold updateTimer.
  change (with_interval (Some l) (worldWithMemberId f w))
    with (worldWithMemberId f (with_interval (Some l) w)).
  apply set_state_withMemberId.
Qed.

Lemma start_withMemberId (c : Captured) (w : World) :
  snd (handleUnlockAccount_start iso c (worldWithMemberId f w)) =
  worldWithMemberId f (snd (handleUnlockAccount_start iso c w)).
Proof.
  rewrite !handleUnlockAccount_start_eq. cbv zeta. cbn [snd].
  change (add_log (startLogEntry iso c (now (worldWithMemberId f w)))
            (worldWithMemberId f w))
    with (worldWithMemberId f (add_log (startLogEntry iso c (now w)) w)).
  rewrite set_state_withMemberId. reflexivity.
Qed.

Lemma resume_withMemberId (c : Captured) (o : RpcOutcome) (w : World) :
  snd (handleUnlockAccount_resume iso c o (worldWithMemberId f w)) =
  worldWithMemberId f (snd (handleUnlockAccount_resume iso c o w)).
Proof.
  destruct o as [|e|e];
    [ rewrite !handleUnlockAccount_resume_ok
    | rewrite !handleUnlockAccount_resume_error
    | rewrite !handleUnlockAccount_resume_rejects ];
    cbn [snd];
    match goal with
    | |- set_state ?g ?x = worldWithMemberId f (set_state ?g ?y) =>
        change x with (worldWithMemberId f y)
    end;
    apply set_state_withMemberId.
Qed.

Lemma step_withMemberId (e : Event) (w : World) :
  step fdn iso (eventWithMemberId f e) (worldWithMemberId f w) =
  worldWithMemberId f (step fdn iso e w).
Proof.
  destruct e as [ms| | |i o| |b|p' gap]; cbn [eventWithMemberId step].
  - reflexivity.
  - cbn [worldWithMemberId interval]. destruct (interval w) as [l|]; [|reflexivity].
    apply set_state_withMemberId.
  - rewrite view_withMemberId.
    destruct (v_unlockButton (view fdn w)) as [b|]; [|reflexivity].
    destruct (button_disabled b); [reflexivity|].
    apply start_withMemberId.
  - cbn [worldWithMemberId pending].
    destruct (nth_error (pending w) i) as [c|]; [|reflexivity].
    apply (resume_withMemberId c o (with_pending (remove_nth i (pending w)) w)).
  - apply set_state_withMemberId.
  - apply set_state_withMemberId.
  - unfold changeProps.
    cbn [worldWithMemberId props withMemberId lockedUntil st now interval
         pending console toasts rpcs].
    destruct (depsChanged (lockedUntil (props w)) (lockedUntil p')); [|reflexivity].
    apply (runEffect_withMemberId
             (cleanupEffect
                (mkWorld p' (st w) (now w) (now w + Z.of_N gap) (interval w)
                         (pending w) (console w) (toasts w) (rpcs w)))).
Qed.

Lemma run_withMemberId (es : list Event) :
  forall w,
    run fdn iso (map (eventWithMemberId f) es) (worldWithMemberId f w) =
    worldWithMemberId f (run fdn iso es w).
Proof.
  induction es as [|e es IH]; intros w; [reflexivity|].
  cbn [map].
  change (run fdn iso (eventWithMemberId f e :: map (eventWithMemberId f) es)
            (worldWithMemberId f w))
    with (run fdn iso (map (eventWithMemberId f) es)
            (step fdn iso (eventWithMemberId f e) (worldWithMemberId f w))).
  rewrite step_withMemberId. apply IH.
Qed.

Lemma mount_withMemberId (p : Props) (t : Z) (gap : N) :
  mount (withMemberId (f (memberId p)) p) t gap =
  worldWithMemberId f (mount p t gap).
Proof.
  unfold mount.
  apply (runEffect_withMemberId
           (mkWorld p initialState t (t + Z.of_N gap) None [] [] [] [])).
Qed.

End MemberId.

(** C9: the member id is accepted but never used.  Take any run of the
    component (a mount followed by any events) and replace the member id in
    the initial props, and in the props of every later props change, by
    anything else: the screen, the remote calls with their arguments, the
    notifications and the log output of the two runs are identical, and so
    are the local state and the pending calls. *)
Theorem C9_memberId_is_unused
    (fdn : Z -> Z -> string) (iso : Z -> string) (f : string -> string)
    (p : Props) (t : Z) (gap : N) (es : list Event) :
  let w := run fdn iso es (mount p t gap) in
  let w' := run fdn iso (map (eventWithMemberId f) es)
              (mount (withMemberId (f (memberId p)) p) t gap) in
  observe fdn w' = observe fdn w /\
  st w' = st w /\ pending w' = pending w /\ interval w' = interval w /\
  (forall s clock id,
     render fdn (withMemberId id p) s clock = render fdn p s clock).
Proof.
  cbv zeta. rewrite mount_withMemberId, run_withMemberId.
  repeat split.
Qed.

Example memberId_is_unused_run :
  let es := [Elapse 1000; Tick; ClickUnlock;
             RpcSettles 0 (RpcRejects (mkError "network down"))] in
  observe sampleDistance
    (run sampleDistance sampleISO es
       (mount (mkProps "uuid-1" "TM10003" "Ada" (Some 0) 3 (Some 65000) true) 0 0)) =
  observe sampleDistance
    (run sampleDistance sampleISO es
       (mount (mkProps "another-id" "TM10003" "Ada" (Some 0) 3 (Some 65000) true) 0 0)).
Proof. vm_compute. reflexivity. Qed.

(** ** A null expiry *)

(** C10: with a null lock-expiry prop the countdown effect sets no timer
    and does not write the countdown string: it leaves the world as it is.
    When the props change to a null expiry the local state, and with it the
    last countdown string, is kept as it was; if the expiry had been set,
    the old interval is cleared, after which ticks do nothing. *)
Theorem C10_null_expiry_keeps_countdown
    (fdn : Z -> Z -> string) (iso : Z -> string)
    (w : World) (p : Props) (t : Z) (gap : N)
    (Hnull : lockedUntil p = None) :
  (forall w0, props w0 = p -> runEffect w0 = w0) /\
  interval (mount p t gap) = None /\
  timeRemaining (st (mount p t gap)) = None /\
  st (changeProps p gap w) = st w /\
  timeRemaining (st (step fdn iso (PropsChange p gap) w)) = timeRemaining (st w) /\
  (forall l, lockedUntil (props w) = Some l ->
     interval (step fdn iso (PropsChange p gap) w) = None /\
     step fdn iso Tick (step fdn iso (PropsChange p gap) w) =
       step fdn iso (PropsChange p gap) w).
Proof.
  assert (Heff : forall w0, props w0 = p -> runEffect w0 = w0).
  { intros w0 Hp. unfold runEffect. rewrite Hp, Hnull. reflexivity. }
  assert (Hst : st (changeProps p gap w) = st w).
  { unfold changeProps.
    destruct (depsChanged (lockedUntil (props w)) (lockedUntil p)); [|reflexivity].
    rewrite Heff by reflexivity. reflexivity. }
  refine (conj Heff (conj _ (conj _ (conj Hst (conj _ _))))).
  - unfold mount. rewrite Heff by reflexivity. reflexivity.
  - unfold mount. rewrite Heff by reflexivity. reflexivity.
  - cbn [step]. rewrite Hst. reflexivity.
  - intros l Hl.
    assert (Hi : interval (step fdn iso (PropsChange p gap) w) = None).
    { cbn [step]. unfold changeProps. rewrite Hl, Hnull. cbn [depsChanged].
      rewrite Heff by reflexivity. reflexivity. }
    split; [exact Hi|].
    set (w1 := step fdn iso (PropsChange p gap) w) in *.
    cbn [step]. rewrite Hi. reflexivity.
Qed.

Lemma C10_null_expiry_keeps_countdown_witness :
  let w := mount (sampleProps None (Some 65000) 3) 0 0 in
  let w' := step sampleDistance sampleISO
              (PropsChange (sampleProps None None 3) 0) w in
  timeRemaining (st w) = Some "1m 5s" /\
  timeRemaining (st w') = Some "1m 5s" /\
  interval w = Some 65000 /\
  interval w' = None.
Proof.
  cbv zeta.
  pose proof (C10_null_expiry_keeps_countdown sampleDistance sampleISO
                (mount (sampleProps None (Some 65000) 3) 0 0)
                (sampleProps None None 3) 0 0 eq_refl)
    as (_ & _ & _ & _ & Hkeep & Hclear).
  destruct (Hclear 65000 eq_refl) as [Hi _].
  refine (conj eq_refl (conj _ (conj eq_refl Hi))).
  rewrite Hkeep. reflexivity.
Defined.

(** * Further properties of the component *)

(** ** Reading the countdown string back *)

Lemma digits_before_m (d : Decimal.uint) :
  forall d' r r',
    (NilEmpty.string_of_uint d ++ String "m" r)%string =
    (NilEmpty.string_of_uint d' ++ String "m" r')%string ->
    d = d' /\ r = r'.
Proof.
  induction d as [|d IH|d IH|d IH|d IH|d IH|d IH|d IH|d IH|d IH|d IH];
    intros d' r r' H; destruct d'; cbn in H; try discriminate H;
    injection H as H;
    try (split; [reflexivity | exact H]);
    apply IH in H; destruct H as [-> ->]; split; reflexivity.
Qed.

Lemma digits_before_s (d : Decimal.uint) :
  forall d' r r',
    (NilEmpty.string_of_uint d ++ String "s" r)%string =
    (NilEmpty.string_of_uint d' ++ String "s" r')%string ->
    d = d' /\ r = r'.
Proof.
  induction d as [|d IH|d IH|d IH|d IH|d IH|d IH|d IH|d IH|d IH|d IH];
    intros d' r r' H; destruct d'; cbn in H; try discriminate H;
    injection H as H;
    try (split; [reflexivity | exact H]);
    apply IH in H; destruct H as [-> ->]; split; reflexivity.
Qed.

(** The numeral of a non-negative integer is a non-empty run of digits. *)
Lemma numberToString_digits (n : Z) :
  0 <= n ->
  exists d, numberToString n = NilEmpty.string_of_uint d /\ Z.of_uint d = n.
Proof.
  intros Hn. destruct (numberToString_nonneg n Hn) as (d & E & V).
  exists d. split; [|exact V].
  unfold numberToString. rewrite E. cbn [NilZero.string_of_int].
  destruct n as [|p|p]; [| |lia]; cbn in E; injection E as <-.
  - reflexivity.
  - pose proof (DecimalPos.Unsigned.to_uint_nonnil p) as Hnil.
    destruct (Pos.to_uint p); [congruence| ..]; reflexivity.
Qed.

Lemma countdown_fields_inj (m s m' s' : Z) :
  0 <= m -> 0 <= s -> 0 <= m' -> 0 <= s' ->
  (numberToString m ++ "m " ++ numberToString s ++ "s")%string =
  (numberToString m' ++ "m " ++ numberToString s' ++ "s")%string ->
  m = m' /\ s = s'.
Proof.
  intros Hm Hs Hm' Hs' H.
  destruct (numberToString_digits m Hm) as (dm & Em & Vm).
  destruct (numberToString_digits s Hs) as (ds & Es & Vs).
  destruct (numberToString_digits m' Hm') as (dm' & Em' & Vm').
  destruct (numberToString_digits s' Hs') as (ds' & Es' & Vs').
  rewrite Em, Es, Em', Es' in H. subst m s m' s'.
  change ("m " ++ NilEmpty.string_of_uint ds ++ "s")%string
    with (String "m" (String " " (NilEmpty.string_of_uint ds ++ String "s" "")))%string in H.
  change ("m " ++ NilEmpty.string_of_uint ds' ++ "s")%string
    with (String "m" (String " " (NilEmpty.string_of_uint ds' ++ String "s" "")))%string in H.
  apply digits_before_m in H. destruct H as [-> H].
  injection H as H.
  apply digits_before_s in H. destruct H as [-> _].
  split; reflexivity.
Qed.

(** The two fields are the quotient and remainder by 60 of the whole
    seconds left. *)
Lemma fields_of_whole_seconds (d : Z) :
  0 <= d ->
  d / 60000 = (d / 1000) / 60 /\ (d mod 60000) / 1000 = (d / 1000) mod 60.
Proof.
  intros Hd.
  assert (E1 : d / 60000 = (d / 1000) / 60).
  { rewrite Z.div_div by lia. reflexivity. }
  split; [exact E1|].
  pose proof (Z.div_mod d 60000 ltac:(lia)) as D1.
  pose proof (Z.mod_pos_bound d 60000 ltac:(lia)) as B1.
  pose proof (Z.div_mod d 1000 ltac:(lia)) as D2.
  pose proof (Z.mod_pos_bound d 1000 ltac:(lia)) as B2.
  pose proof (Z.div_mod (d / 1000) 60 ltac:(lia)) as D3.
  pose proof (Z.mod_pos_bound (d / 1000) 60 ltac:(lia)) as B3.
  pose proof (Z.div_mod (d mod 60000) 1000 ltac:(lia)) as D4.
  pose proof (Z.mod_pos_bound (d mod 60000) 1000 ltac:(lia)) as B4.
  rewrite <- E1 in D3. lia.
Qed.

(** X1: while the lock has not expired the countdown string is
    "<m>m <s>s" with m >= 0 and s between 0 and 59 (there is no hours
    field, m is not bounded), and 60 m + s is the number of whole seconds
    left: the string understates the time left by less than a second and
    never overstates it. *)
Theorem X1_countdown_fields (l t : Z) (Hrunning : t < l) :
  exists m s,
    countdown l t = Some (numberToString m ++ "m " ++ numberToString s ++ "s") /\
    0 <= m /\ 0 <= s <= 59 /\
    60 * m + s = (l - t) / 1000 /\
    1000 * (60 * m + s) <= l - t < 1000 * (60 * m + s) + 1000.
Proof.
  exists ((l - t) / 60000), (((l - t) mod 60000) / 1000).
  destruct (fields_of_whole_seconds (l - t) ltac:(lia)) as [E1 E2].
  pose proof (Z.div_mod ((l - t) / 1000) 60 ltac:(lia)) as D3.
  pose proof (Z.mod_pos_bound ((l - t) / 1000) 60 ltac:(lia)) as B3.
  pose proof (Z.div_mod (l - t) 1000 ltac:(lia)) as D2.
  pose proof (Z.mod_pos_bound (l - t) 1000 ltac:(lia)) as B2.
  assert (0 <= (l - t) / 1000) by (apply Z.div_pos; lia).
  assert (0 <= (l - t) / 1000 / 60) by (apply Z.div_pos; lia).
  split; [apply countdown_running; lia|].
  rewrite E1, E2. repeat split; lia.
Qed.

Lemma X1_countdown_fields_witness :
  exists m s,
    countdown 7265999 0 = Some (numberToString m ++ "m " ++ numberToString s ++ "s") /\
    0 <= m /\ 0 <= s <= 59 /\
    60 * m + s = (7265999 - 0) / 1000 /\
    1000 * (60 * m + s) <= 7265999 - 0 < 1000 * (60 * m + s) + 1000.
Proof.
  apply (X1_countdown_fields 7265999 0). lia.
Defined.

Example countdown_two_hours : countdown 7265999 0 = Some "121m 5s".
Proof. reflexivity. Qed.

Lemma countdown_same_iff (l t t' : Z) :
  t < l -> t' < l ->
  (countdown l t = countdown l t' <-> (l - t) / 1000 = (l - t') / 1000).
Proof.
  intros Hrunning Hrunning'.
  destruct (fields_of_whole_seconds (l - t) ltac:(lia)) as [E1 E2].
  destruct (fields_of_whole_seconds (l - t') ltac:(lia)) as [E1' E2'].
  rewrite !countdown_running by lia. rewrite E1, E2, E1', E2'.
  split.
  - intros H. injection H as H.
    apply countdown_fields_inj in H.
    + destruct H as [Hm Hs].
      pose proof (Z.div_mod ((l - t) / 1000) 60 ltac:(lia)).
      pose proof (Z.div_mod ((l - t') / 1000) 60 ltac:(lia)).
      lia.
    + apply Z.div_pos; [apply Z.div_pos|]; lia.
    + apply Z.mod_pos_bound; lia.
    + apply Z.div_pos; [apply Z.div_pos|]; lia.
    + apply Z.mod_pos_bound; lia.
  - intros ->. reflexivity.
Qed.

(** X2: two timer updates before the expiry produce the same string
    exactly when the same number of whole seconds is left; an update at or
    after the expiry never produces what an update before it does. *)
Theorem X2_countdown_distinguishes_seconds (l t t' : Z) (Hrunning : t < l) :
  (t' < l -> (countdown l t = countdown l t' <-> (l - t) / 1000 = (l - t') / 1000)) /\
  (l <= t' -> countdown l t <> countdown l t').
Proof.
  split.
  - intros Hrunning'. apply countdown_same_iff; assumption.
  - intros Hexpired. rewrite (countdown_expired l t') by lia.
    rewrite countdown_running by lia. discriminate.
Qed.

Lemma X2_countdown_distinguishes_seconds_witness :
  countdown 65000 100 = countdown 65000 900 /\
  countdown 65000 100 <> countdown 65000 1100.
Proof.
  destruct (X2_countdown_distinguishes_seconds 65000 100 900 ltac:(lia)) as [H1 _].
  destruct (X2_countdown_distinguishes_seconds 65000 100 1100 ltac:(lia)) as [H2 _].
  split.
  - apply (H1 ltac:(lia)). reflexivity.
  - intros E. apply (H2 ltac:(lia)) in E. discriminate E.
Defined.

(** ** What each event leaves alone *)

Section Frames.

Variable fdn : Z -> Z -> string.
Variable iso : Z -> string.

Lemma runEffect_frame (w : World) :
  props (runEffect w) = props w /\ now (runEffect w) = now w /\
  pending (runEffect w) = pending w /\ console (runEffect w) = console w /\
  toasts (runEffect w) = toasts w /\ rpcs (runEffect w) = rpcs w /\
  (rendered_at (runEffect w) = rendered_at w \/ rendered_at (runEffect w) = now w).
Proof.
  unfold runEffect. destruct (lockedUntil (props w)) as [l|]; [|repeat split; auto].
  unfold updateTimer.
  match goal with
  | |- context [set_state ?f ?x] =>
      destruct (set_state_frame f x) as (-> & -> & _ & -> & -> & -> & ->);
      destruct (set_state_rendered_at f x) as [E|[_ E]]; rewrite E
  end; cbn; repeat split; auto.
Qed.

(** Events other than the click and the settling leave the busy flag, the
    pending calls and the three output channels alone. *)
Lemma step_other_frame (e : Event) (w : World) :
  isHandlerEvent e = false ->
  isUnlocking (st (step fdn iso e w)) = isUnlocking (st w) /\
  pending (step fdn iso e w) = pending w /\
  rpcs (step fdn iso e w) = rpcs w /\
  toasts (step fdn iso e w) = toasts w /\
  console (step fdn iso e w) = console w.
Proof.
  intros He. destruct e as [ms| | |i o| |b|p' gap]; cbn [step]; try discriminate.
  - repeat split.
  - destruct (interval w) as [l|]; [|repeat split].
    unfold updateTimer. rewrite set_state_st.
    destruct (set_state_frame (setTimeRemaining (countdown l (now w))) w)
      as (_ & _ & _ & -> & -> & -> & ->).
    repeat split.
  - rewrite set_state_st.
    destruct (set_state_frame (setShowResetDialog true) w)
      as (_ & _ & _ & -> & -> & -> & ->).
    repeat split.
  - rewrite set_state_st.
    destruct (set_state_frame (setShowResetDialog b) w)
      as (_ & _ & _ & -> & -> & -> & ->).
    repeat split.
  - unfold changeProps.
    destruct (depsChanged (lockedUntil (props w)) (lockedUntil p')); [|repeat split].
    match goal with
    | |- context [runEffect ?x] =>
        destruct (runEffect_frame x) as (_ & _ & -> & -> & -> & -> & _);
        destruct (runEffect_st x) as [_ ->]
    end.
    repeat split.
Qed.

(** While the busy flag is set a click does nothing. *)
Lemma click_while_busy (w : World) :
  isUnlocking (st w) = true -> step fdn iso ClickUnlock w = w.
Proof.
  intros Hu. cbn [step].
  destruct (v_unlockButton (view fdn w)) as [b|] eqn:Hb; [|reflexivity].
  destruct (busy_button fdn w b Hu Hb) as [-> _]. reflexivity.
Qed.

Lemma busy_frame (e : Event) (w : World) :
  isSettle e = false -> isUnlocking (st w) = true ->
  pending (step fdn iso e w) = pending w /\
  rpcs (step fdn iso e w) = rpcs w /\
  toasts (step fdn iso e w) = toasts w.
Proof.
  intros He Hu.
  destruct (isHandlerEvent e) eqn:Hh.
  - destruct e; try discriminate. rewrite click_while_busy by exact Hu. auto.
  - destruct (step_other_frame e w Hh) as (_ & -> & -> & -> & _). auto.
Qed.

Lemma busy_run_frame (es : list Event) :
  forallb (fun e => negb (isSettle e)) es = true ->
  forall w, isUnlocking (st w) = true ->
    pending (run fdn iso es w) = pending w /\
    rpcs (run fdn iso es w) = rpcs w /\
    toasts (run fdn iso es w) = toasts w.
Proof.
  induction es as [|e es IH]; intros Hes w Hu; [auto|].
  cbn in Hes. apply andb_true_iff in Hes. destruct Hes as [He Hes].
  apply negb_true_iff in He.
  change (run fdn iso (e :: es) w) with (run fdn iso es (step fdn iso e w)).
  destruct (IH Hes (step fdn iso e w) (busy_until_settled fdn iso e w He Hu))
    as (-> & -> & ->).
  apply busy_frame; assumption.
Qed.

Lemma start_rendered_at (c : Captured) (w : World) :
  rendered_at (snd (handleUnlockAccount_start iso c w)) = rendered_at w \/
  rendered_at (snd (handleUnlockAccount_start iso c w)) = now w.
Proof.
  rewrite handleUnlockAccount_start_eq. cbv zeta. cbn [snd with_pending add_rpc rendered_at].
  match goal with
  | |- context [set_state ?f ?x] =>
      destruct (set_state_rendered_at f x) as [E|[_ E]]; rewrite E; cbn; auto
  end.
Qed.

Lemma resume_rendered_at (c : Captured) (o : RpcOutcome) (w : World) :
  rendered_at (snd (handleUnlockAccount_resume iso c o w)) = rendered_at w \/
  rendered_at (snd (handleUnlockAccount_resume iso c o w)) = now w.
Proof.
  destruct o as [|e|e];
    [ rewrite handleUnlockAccount_resume_ok
    | rewrite handleUnlockAccount_resume_error
    | rewrite handleUnlockAccount_resume_rejects ];
    cbn [snd];
    match goal with
    | |- context [set_state ?f ?x] =>
        destruct (set_state_rendered_at f x) as [E|[_ E]]; rewrite E; cbn; auto
    end.
Qed.

(** The clock never runs backwards and a render is never replaced by an
    older one. *)
Lemma step_clock (e : Event) (w : World) :
  rendered_at w <= now w ->
  now w <= now (step fdn iso e w) /\
  rendered_at w <= rendered_at (step fdn iso e w) <= now (step fdn iso e w).
Proof.
  intros Hr. destruct e as [ms| | |i o| |b|p' gap]; cbn [step].
  - cbn. lia.
  - destruct (interval w) as [l|]; [|lia]. unfold updateTimer.
    match goal with
    | |- context [set_state ?f ?x] =>
        destruct (set_state_frame f x) as (_ & -> & _);
        destruct (set_state_rendered_at f x) as [E|[_ E]]; rewrite E; lia
    end.
  - destruct (v_unlockButton (view fdn w)) as [b|]; [|lia].
    destruct (button_disabled b); [lia|].
    destruct (handleUnlockAccount_start_effects iso (capture (props w)) w)
      as (_ & _ & _ & _ & _ & _ & _ & -> & _).
    destruct (start_rendered_at (capture (props w)) w) as [E|E]; rewrite E; lia.
  - destruct (nth_error (pending w) i) as [c|]; [|lia].
    destruct (handleUnlockAccount_resume_effects iso c o
                (with_pending (remove_nth i (pending w)) w))
      as (_ & _ & _ & _ & _ & _ & _ & -> & _).
    destruct (resume_rendered_at c o (with_pending (remove_nth i (pending w)) w))
      as [E|E]; rewrite E; cbn; lia.
  - destruct (set_state_frame (setShowResetDialog true) w) as (_ & -> & _).
    destruct (set_state_rendered_at (setShowResetDialog true) w) as [E|[_ E]];
      rewrite E; lia.
  - destruct (set_state_frame (setShowResetDialog b) w) as (_ & -> & _).
    destruct (set_state_rendered_at (setShowResetDialog b) w) as [E|[_ E]];
      rewrite E; lia.
  - unfold changeProps.
    destruct (depsChanged (lockedUntil (props w)) (lockedUntil p')); [|cbn; lia].
    match goal with
    | |- context [runEffect ?x] =>
        destruct (runEffect_frame x) as (_ & -> & _ & _ & _ & _ & [E|E]);
        rewrite E
    end; cbn; lia.
Qed.

Lemma depsChanged_false (a b : option Z) : depsChanged a b = false -> a = b.
Proof.
  destruct a as [x|], b as [y|]; cbn; intros H; try discriminate; [|reflexivity].
  apply negb_false_iff in H. apply Z.eqb_eq in H. congruence.
Qed.

Lemma timerInv_step (e : Event) (w : World) :
  timerInv w -> timerInv (step fdn iso e w).
Proof.
  intros [Hi Hr]. split; [|destruct (step_clock e w Hr); lia].
  destruct e as [ms| | |i o| |b|p' gap]; cbn [step].
  - exact Hi.
  - destruct (interval w) as [l|] eqn:El; [|rewrite El; exact Hi].
    destruct (updateTimer_frame l w) as (-> & _ & ->). congruence.
  - destruct (v_unlockButton (view fdn w)) as [b|]; [|exact Hi].
    destruct (button_disabled b); [exact Hi|].
    destruct (handleUnlockAccount_start_effects iso (capture (props w)) w)
      as (_ & _ & _ & _ & _ & -> & -> & _).
    exact Hi.
  - destruct (nth_error (pending w) i) as [c|]; [|exact Hi].
    destruct (handleUnlockAccount_resume_effects iso c o
                (with_pending (remove_nth i (pending w)) w))
      as (_ & _ & _ & _ & -> & _ & -> & _).
    exact Hi.
  - destruct (set_state_frame (setShowResetDialog true) w) as (-> & _ & -> & _).
    exact Hi.
  - destruct (set_state_frame (setShowResetDialog b) w) as (-> & _ & -> & _).
    exact Hi.
  - unfold changeProps.
    destruct (depsChanged (lockedUntil (props w)) (lockedUntil p')) eqn:Ed.
    + unfold runEffect, cleanupEffect. cbn [props with_interval].
      destruct (lockedUntil p') as [l|] eqn:El.
      * match goal with
        | |- context [updateTimer l ?x] =>
            destruct (updateTimer_frame l x) as (-> & _ & ->)
        end.
        cbn. congruence.
      * cbn. congruence.
    + apply depsChanged_false in Ed. cbn. congruence.
Qed.

Lemma timerInv_mount (p : Props) (t : Z) (gap : N) :
  timerInv (mount p t gap) /\ t <= rendered_at (mount p t gap).
Proof.
  unfold mount, timerInv.
  set (w0 := mkWorld p initialState t (t + Z.of_N gap) None [] [] [] []).
  destruct (runEffect_frame w0) as (Hp & Hn & _ & _ & _ & _ & Hr).
  rewrite Hp, Hn. subst w0. cbn [props now rendered_at] in *.
  repeat split; try (destruct Hr as [-> | ->]; lia).
  unfold runEffect. cbn [props].
  destruct (lockedUntil p) as [l|]; [|reflexivity].
  match goal with
  | |- interval (updateTimer l ?x) = _ =>
      destruct (updateTimer_frame l x) as (_ & _ & ->)
  end. reflexivity.
Qed.

Lemma flightInv_step (e : Event) (w : World) :
  flightInv w -> flightInv (step fdn iso e w).
Proof.
  intros [Hflag Hcount].
  destruct (isHandlerEvent e) eqn:Hh.
  - destruct e as [ms| | |i o| |b|p' gap]; try discriminate; cbn [step].
    + destruct (v_unlockButton (view fdn w)) as [b|] eqn:Hb; [|split; assumption].
      destruct (button_disabled b) eqn:Hd; [split; assumption|].
      apply unlockButton_of_render in Hb. subst b. cbn in Hd.
      destruct Hflag as [[Hu Hp]|[Hu _]]; [|congruence].
      destruct (handleUnlockAccount_start_effects iso (capture (props w)) w)
        as (_ & Hr & Ht & Hp' & Hu' & _).
      unfold flightInv. rewrite Hr, Ht, Hp', Hu', Hp, !length_app.
      rewrite Hp in Hcount. cbn in *. split; [right; eauto | lia].
    + destruct (nth_error (pending w) i) as [c|] eqn:Hc; [|split; assumption].
      destruct Hflag as [[Hu Hp]|[Hu [c0 Hp]]].
      * rewrite Hp in Hc. destruct i; discriminate.
      * rewrite Hp in Hc. destruct i as [|i]; [|destruct i; discriminate].
        destruct (handleUnlockAccount_resume_effects iso c o
                    (with_pending (remove_nth 0 (pending w)) w))
          as (_ & Ht & Hr & Hu' & _ & Hp' & _).
        unfold flightInv. rewrite Ht, Hr, Hu', Hp', length_app.
        cbn [with_pending pending toasts rpcs]. rewrite Hp in *. cbn in *.
        split; [left; auto | lia].
  - destruct (step_other_frame e w Hh) as (Hu & Hp & Hr & Ht & _).
    unfold flightInv. rewrite Hu, Hp, Hr, Ht. split; assumption.
Qed.

End Frames.

(** ** Ticks and re-renders *)

Lemma set_state_fixed_iff (f : State -> State) (w : World) :
  set_state f w = w <-> f (st w) = st w.
Proof.
  split.
  - intros E. rewrite <- (set_state_st f w). rewrite E. reflexivity.
  - intros E. unfold set_state.
    destruct (State_eq_dec (f (st w)) (st w)); [reflexivity|contradiction].
Qed.

(** X3: while the lock runs, a tick changes nothing at all (no state
    change, no re-render) exactly when the whole seconds left are the ones
    already displayed; otherwise it stores the new string and re-renders at
    the current clock reading. *)
Theorem X3_tick_rerenders_on_new_second
    (fdn : Z -> Z -> string) (iso : Z -> string) (w : World) (l t0 : Z)
    (Hinterval : interval w = Some l)
    (Hshown : timeRemaining (st w) = countdown l t0)
    (Hthen : t0 < l) (Hnow : now w < l) :
  (step fdn iso Tick w = w <-> (l - t0) / 1000 = (l - now w) / 1000) /\
  ((l - t0) / 1000 <> (l - now w) / 1000 ->
   timeRemaining (st (step fdn iso Tick w)) = countdown l (now w) /\
   rendered_at (step fdn iso Tick w) = now w).
Proof.
  cbn [step]. rewrite Hinterval. unfold updateTimer.
  assert (Hfix : setTimeRemaining (countdown l (now w)) (st w) = st w <->
                 (l - t0) / 1000 = (l - now w) / 1000).
  { rewrite <- (countdown_same_iff l t0 (now w) Hthen Hnow), <- Hshown.
    destruct (st w) as [d u r]; cbn. split.
    - intros E. injection E as E. congruence.
    - intros ->. reflexivity. }
  split.
  - rewrite set_state_fixed_iff. exact Hfix.
  - intros Hne. rewrite set_state_st. split; [reflexivity|].
    destruct (set_state_rendered_at (setTimeRemaining (countdown l (now w))) w)
      as [E|[_ E]]; [|exact E].
    unfold set_state in *.
    destruct (State_eq_dec (setTimeRemaining (countdown l (now w)) (st w)) (st w))
      as [E'|E']; [|reflexivity].
    exfalso. apply Hne. apply Hfix. exact E'.
Qed.

Lemma X3_tick_rerenders_on_new_second_witness :
  let w := step sampleDistance sampleISO (Elapse 400)
             (mount (sampleProps None (Some 65500) 3) 0 0) in
  step sampleDistance sampleISO Tick w = w.
Proof.
  cbv zeta.
  apply (X3_tick_rerenders_on_new_second sampleDistance sampleISO
           (step sampleDistance sampleISO (Elapse 400)
              (mount (sampleProps None (Some 65500) 3) 0 0))
           65500 0 eq_refl eq_refl eq_refl eq_refl).
  reflexivity.
Defined.

(** ** Invariants of every run *)

Section Reachable.

Variable fdn : Z -> Z -> string.
Variable iso : Z -> string.

Lemma timerInv_run (es : list Event) :
  forall w, timerInv w -> timerInv (run fdn iso es w).
Proof.
  induction es as [|e es IH]; intros w Hinv; [exact Hinv|].
  change (run fdn iso (e :: es) w) with (run fdn iso es (step fdn iso e w)).
  apply IH. apply timerInv_step. exact Hinv.
Qed.

Lemma rendered_at_run (es : list Event) :
  forall w, rendered_at w <= now w ->
    rendered_at w <= rendered_at (run fdn iso es w).
Proof.
  induction es as [|e es IH]; intros w Hr; [cbn; lia|].
  change (run fdn iso (e :: es) w) with (run fdn iso es (step fdn iso e w)).
  destruct (step_clock fdn iso e w Hr) as (_ & H1 & H2).
  specialize (IH (step fdn iso e w) H2). lia.
Qed.

Lemma flightInv_run (es : list Event) :
  forall w, flightInv w -> flightInv (run fdn iso es w).
Proof.
  induction es as [|e es IH]; intros w Hinv; [exact Hinv|].
  change (run fdn iso (e :: es) w) with (run fdn iso es (step fdn iso e w)).
  apply IH. apply flightInv_step. exact Hinv.
Qed.

Lemma flightInv_mount (p : Props) (t : Z) (gap : N) :
  flightInv (mount p t gap).
Proof.
  unfold mount, flightInv.
  set (w0 := mkWorld p initialState t (t + Z.of_N gap) None [] [] [] []).
  destruct (runEffect_frame w0) as (_ & _ & -> & _ & -> & -> & _).
  destruct (runEffect_st w0) as [_ ->].
  subst w0. cbn. auto.
Qed.

End Reachable.

(** X4: in every run of the component (a mount followed by any events,
    props changes included) an interval is live exactly when the current
    lock-expiry prop is set, and the expiry its callback uses is the one of
    the current props; the screen is never older than the first render and
    never from the future. *)
Theorem X4_timer_follows_expiry_prop
    (fdn : Z -> Z -> string) (iso : Z -> string)
    (p : Props) (t : Z) (gap : N) (es : list Event) :
  let w := run fdn iso es (mount p t gap) in
  interval w = lockedUntil (props w) /\
  (interval w = None <-> lockedUntil (props w) = None) /\
  t <= rendered_at w <= now w.
Proof.
  cbv zeta.
  destruct (timerInv_mount p t gap) as [Hinv Ht].
  pose proof (timerInv_run fdn iso es _ Hinv) as [Hi Hr].
  pose proof (rendered_at_run fdn iso es _ (proj2 Hinv)) as Hm.
  rewrite Hi. repeat split; auto; lia.
Qed.

(** X5: in every run at most one unlock call is in flight; the busy flag
    is set exactly while one is; and the number of remote calls made equals
    the number of notifications shown plus the calls still pending, so
    every call is answered by exactly one notification and none is
    repeated. *)
Theorem X5_one_call_in_flight
    (fdn : Z -> Z -> string) (iso : Z -> string)
    (p : Props) (t : Z) (gap : N) (es : list Event) :
  let w := run fdn iso es (mount p t gap) in
  (List.length (pending w) <= 1)%nat /\
  (isUnlocking (st w) = true <-> pending w <> []) /\
  List.length (rpcs w) = (List.length (toasts w) + List.length (pending w))%nat.
Proof.
  cbv zeta.
  destruct (flightInv_run fdn iso es _ (flightInv_mount p t gap))
    as [[[Hu Hp]|[Hu [c Hp]]] Hcount]; rewrite Hp in *; rewrite Hu.
  - cbn in *. split; [lia|]. split; [|lia]. split; intros H; [discriminate|contradiction].
  - cbn in *. split; [lia|]. split; [|lia]. split; intros H; [discriminate|reflexivity].
Qed.

Example double_click_is_one_call :
  let w := run sampleDistance sampleISO [ClickUnlock; ClickUnlock; Elapse 10; ClickUnlock]
             (mount (sampleProps None (Some 65000) 5) 0 0) in
  rpcs w = [mkRpc "reset_failed_login" [("member_number", "TM10003")]] /\
  pending w = [mkCaptured "TM10003" "Ada"].
Proof. vm_compute. split; reflexivity. Qed.

(** ** The handler's closure and its log *)

(** X6: the notification of an unlock names the member that was on screen
    when the button was clicked.  After a click on the visible, enabled
    button and any events that do not settle the call (ticks, dialog
    events, further clicks, props changes that rename the member), the
    call is still the pending one, no notification has been shown yet, and
    settling it shows one notification built from the member name captured
    at the click and clears the busy flag. *)
Theorem X6_notification_names_clicked_member
    (fdn : Z -> Z -> string) (iso : Z -> string)
    (w : World) (b : Button) (es : list Event) (o : RpcOutcome)
    (Hshown : v_unlockButton (view fdn w) = Some b)
    (Henabled : button_disabled b = false)
    (Hes : forallb (fun e => negb (isSettle e)) es = true) :
  let w1 := run fdn iso es (step fdn iso ClickUnlock w) in
  let w2 := step fdn iso (RpcSettles (List.length (pending w)) o) w1 in
  pending w1 = (pending w ++ [capture (props w)])%list /\
  toasts w1 = toasts w /\
  rpcs w2 =
    (rpcs w ++ [mkRpc "reset_failed_login"
                  [("member_number", memberNumber (props w))]])%list /\
  toasts w2 =
    (toasts w ++
     [match outcomeError o with
      | None =>
          mkToast ToastSuccess "Account has been unlocked"
            ("Successfully unlocked account for " ++ memberName (props w))
      | Some e => mkToast ToastError "Failed to unlock account" (message e)
      end])%list /\
  pending w2 = pending w /\
  isUnlocking (st w2) = false.
Proof.
  cbv zeta.
  rewrite (step_click_unlock fdn iso w b Hshown Henabled).
  destruct (handleUnlockAccount_start_effects iso (capture (props w)) w)
    as (_ & Hr & Ht & Hp & Hu & _).
  destruct (busy_run_frame fdn iso es Hes _ Hu) as (Hp1 & Hr1 & Ht1).
  rewrite Hp in Hp1. rewrite Hr in Hr1. rewrite Ht in Ht1.
  assert (Hnth : nth_error
            (pending (run fdn iso es
               (snd (handleUnlockAccount_start iso (capture (props w)) w))))
            (List.length (pending w)) = Some (capture (props w))).
  { rewrite Hp1. rewrite nth_error_app2 by lia. rewrite Nat.sub_diag. reflexivity. }
  rewrite (step_settle fdn iso _ _ o _ Hnth).
  match goal with
  | |- context [handleUnlockAccount_resume iso ?c o ?x] =>
      destruct (handleUnlockAccount_resume_effects iso c o x)
        as (_ & Ht2 & Hr2 & Hu2 & _ & Hp2 & _)
  end.
  rewrite Ht2, Hr2, Hp2, Hu2. cbn [with_pending toasts rpcs pending].
  rewrite Hp1, Hr1, Ht1.
  refine (conj eq_refl (conj eq_refl (conj eq_refl (conj _ (conj _ eq_refl))))).
  - destruct (outcomeError o); reflexivity.
  - clear. induction (pending w) as [|c l IH]; [reflexivity|].
    cbn. f_equal. exact IH.
Qed.

Lemma X6_notification_names_clicked_member_witness :
  let w := mount (sampleProps None (Some 65000) 5) 0 0 in
  let renamed := mkProps "uuid-1" "TM10003" "Grace" None 5 (Some 65000) false in
  let w2 := step sampleDistance sampleISO (RpcSettles 0 RpcOk)
              (run sampleDistance sampleISO [Elapse 1000; Tick; PropsChange renamed 0]
                 (step sampleDistance sampleISO ClickUnlock w)) in
  toasts w2 =
    [mkToast ToastSuccess "Account has been unlocked"
       "Successfully unlocked account for Ada"] /\
  memberName (props w2) = "Grace".
Proof.
  cbv zeta. split; [|reflexivity].
  exact (proj1 (proj2 (proj2 (proj2
    (X6_notification_names_clicked_member sampleDistance sampleISO
       (mount (sampleProps None (Some 65000) 5) 0 0)
       (mkButton false Lock "Unlock")
       [Elapse 1000; Tick;
        PropsChange (mkProps "uuid-1" "TM10003" "Grace" None 5 (Some 65000) false) 0]
       RpcOk eq_refl eq_refl eq_refl))))).
Defined.

(** X7: what the handler writes to the console.  Up to the await it logs
    one entry (level log) with the member number, the member name and the
    time.  Once the call has settled it logs nothing on success, one error
    entry when the call was rejected, and two error entries (one from the
    try block, one from the catch block) when the call returned an error;
    each error entry carries the error, the member number and the time of
    settling, and no member name. *)
Theorem X7_unlock_console_output
    (iso : Z -> string) (c : Captured) (o : RpcOutcome) (w : World) :
  console (snd (handleUnlockAccount_start iso c w)) =
    (console w ++
     [mkLog LevelLog "Unlocking account for member:"
        [("memberNumber", VString (c_memberNumber c));
         ("memberName", VString (c_memberName c));
         ("timestamp", VString (iso (now w)))]])%list /\
  console (snd (handleUnlockAccount_resume iso c o w)) =
    (console w ++
     match outcomeError o with
     | None => []
     | Some e =>
         map (fun label =>
                mkLog LevelError label
                  [("error", VError e);
                   ("memberNumber", VString (c_memberNumber c));
                   ("timestamp", VString (iso (now w)))])
             (errorLabels o)
     end)%list /\
  (List.length (errorLabels o) =
     match o with RpcOk => 0 | RpcError _ => 2 | RpcRejects _ => 1 end)%nat.
Proof.
  split; [|split].
  - rewrite handleUnlockAccount_start_eq. cbv zeta. cbn [snd with_pending add_rpc console].
    match goal with
    | |- context [set_state ?f ?x] =>
        destruct (set_state_frame f x) as (_ & _ & _ & _ & -> & _)
    end.
    reflexivity.
  - destruct o as [|e|e];
      [ rewrite handleUnlockAccount_resume_ok
      | rewrite handleUnlockAccount_resume_error
      | rewrite handleUnlockAccount_resume_rejects ];
      cbn [snd];
      match goal with
      | |- context [set_state ?f ?x] =>
          destruct (set_state_frame f x) as (_ & _ & _ & _ & -> & _)
      end; cbn.
    + rewrite app_nil_r. reflexivity.
    + rewrite <- app_assoc. reflexivity.
    + reflexivity.
  - destruct o; reflexivity.
Qed.

(** ** The dialog flag *)

(** X8: opening and closing the reset dialog has no side effect.  The
    "Reset Password" click acts as the dialog callback called with true;
    a callback call with any value leaves the props, the clock, the
    interval, the busy flag, the countdown, the pending calls, the remote
    calls, the notifications and the console as they were, hands the dialog
    the new flag together with the current member number and name, and is
    a no-op (not even a re-render) when the flag already has that value. *)
Theorem X8_dialog_toggle_has_no_side_effect
    (fdn : Z -> Z -> string) (iso : Z -> string) (b : bool) (w : World) :
  let w' := step fdn iso (DialogOpenChange b) w in
  step fdn iso ClickResetPassword w = step fdn iso (DialogOpenChange true) w /\
  props w' = props w /\ now w' = now w /\ interval w' = interval w /\
  pending w' = pending w /\ console w' = console w /\
  toasts w' = toasts w /\ rpcs w' = rpcs w /\
  isUnlocking (st w') = isUnlocking (st w) /\
  timeRemaining (st w') = timeRemaining (st w) /\
  v_dialog (view fdn w') =
    mkDialog b (memberNumber (props w)) (memberName (props w)) /\
  v_magicLink (view fdn w') =
    mkMagicLink (memberNumber (props w)) (memberName (props w)) /\
  (showResetDialog (st w) = b -> w' = w).
Proof.
  cbv zeta. cbn [step]. unfold view.
  destruct (set_state_frame (setShowResetDialog b) w)
    as (-> & -> & -> & -> & -> & -> & ->).
  rewrite set_state_st.
  refine (conj eq_refl (conj eq_refl (conj eq_refl (conj eq_refl (conj eq_refl
          (conj eq_refl (conj eq_refl (conj eq_refl (conj eq_refl (conj eq_refl
          (conj eq_refl (conj eq_refl _)))))))))))).
  intros E. apply set_state_fixed_iff. unfold setShowResetDialog.
  destruct (st w); cbn in *. congruence.
Qed.

(** ** Monotonicity of the two indicators *)

(** X9: over the non-negative counts the battery indicator never gets less
    alarming as the failed attempts grow; a negative count falls through
    the first test and is drawn as the medium tier, more alarming than a
    count of zero. *)
Theorem X9_battery_is_monotone (n m : Z) (Hn : 0 <= n) (Hnm : n <= m) :
  tierRank (BatteryIcon n) <= tierRank (BatteryIcon m) /\
  (forall k, k < 0 -> BatteryIcon k = tierMedium) /\
  tierRank (BatteryIcon 0) < tierRank tierMedium.
Proof.
  split; [|split].
  - unfold BatteryIcon, tierRank.
    destruct (Z.eqb_spec n 0); destruct (Z.leb_spec n 2); destruct (Z.leb_spec n 4);
      destruct (Z.eqb_spec m 0); destruct (Z.leb_spec m 2); destruct (Z.leb_spec m 4);
      cbn; lia.
  - intros k Hk. unfold BatteryIcon.
    destruct (Z.eqb_spec k 0); [lia|]. destruct (Z.leb_spec k 2); [reflexivity|lia].
  - reflexivity.
Qed.

Lemma X9_battery_is_monotone_witness :
  tierRank (BatteryIcon 2) <= tierRank (BatteryIcon 3).
Proof.
  exact (proj1 (X9_battery_is_monotone 2 3 ltac:(lia) ltac:(lia))).
Defined.

(** X10: the password age never decreases as the clock advances and a
    stale password never becomes fresh again by waiting; an earlier
    password-set timestamp is never fresher than a later one; and a
    timestamp in the future gives a negative age (rounded down, so at most
    -1) and the fresh classification. *)
Theorem X10_password_age_is_monotone (t now1 now2 : Z) (Hclock : now1 <= now2) :
  passwordAgeInDays (Some t) now1 <= passwordAgeInDays (Some t) now2 /\
  (passwordAgeStatus (Some t) now1 = warning ->
   passwordAgeStatus (Some t) now2 = warning) /\
  (forall t', t' <= t ->
     passwordAgeStatus (Some t) now1 = warning ->
     passwordAgeStatus (Some t') now1 = warning) /\
  (now1 < t ->
   passwordAgeInDays (Some t) now1 <= -1 /\
   passwordAgeStatus (Some t) now1 = success).
Proof.
  assert (Hmono : forall a b, a <= b -> a / msPerDay <= b / msPerDay).
  { intros a b Hab. apply Z.div_le_mono; [reflexivity | exact Hab]. }
  split; [|split; [|split]].
  - cbn [passwordAgeInDays]. apply Hmono. lia.
  - rewrite !passwordAgeStatus_warning_iff. cbn [passwordAgeInDays].
    specialize (Hmono (now1 - t) (now2 - t) ltac:(lia)). lia.
  - intros t' Ht'. rewrite !passwordAgeStatus_warning_iff. cbn [passwordAgeInDays].
    specialize (Hmono (now1 - t) (now1 - t') ltac:(lia)). lia.
  - intros Hfuture.
    assert (Hneg : passwordAgeInDays (Some t) now1 <= -1).
    { cbn [passwordAgeInDays].
      assert ((now1 - t) / msPerDay < 0) by (apply Z.div_lt_upper_bound; [reflexivity|lia]).
      lia. }
    split; [exact Hneg|]. apply passwordAgeStatus_success_iff. lia.
Qed.

Lemma X10_password_age_is_monotone_witness :
  passwordAgeInDays (Some 0) (91 * msPerDay) <=
  passwordAgeInDays (Some 0) (200 * msPerDay).
Proof.
  exact (proj1 (X10_password_age_is_monotone 0 (91 * msPerDay) (200 * msPerDay)
                  ltac:(vm_compute; discriminate))).
Defined.

(** ** A change of the expiry *)

(** X12: when the props change to an expiry that differs from the current
    one (or the current one is null), the effect runs again once the
    flush delay has passed: the old interval is replaced by one for the
    new expiry and the countdown is recomputed against the new expiry at
    once, without waiting for a tick; the busy flag, the dialog flag, the
    pending calls and the output channels are untouched. *)
Theorem X12_new_expiry_restarts_countdown
    (fdn : Z -> Z -> string) (iso : Z -> string)
    (w : World) (p : Props) (gap : N) (l : Z)
    (Hnew : lockedUntil p = Some l)
    (Hchanged : lockedUntil (props w) <> Some l) :
  let w' := step fdn iso (PropsChange p gap) w in
  props w' = p /\
  now w' = now w + Z.of_N gap /\
  interval w' = Some l /\
  timeRemaining (st w') = countdown l (now w + Z.of_N gap) /\
  isUnlocking (st w') = isUnlocking (st w) /\
  showResetDialog (st w') = showResetDialog (st w) /\
  pending w' = pending w /\ rpcs w' = rpcs w /\
  toasts w' = toasts w /\ console w' = console w.
Proof.
  cbv zeta.
  destruct (step_other_frame fdn iso (PropsChange p gap) w eq_refl)
    as (Hu & Hp & Hr & Ht & Hc).
  pose proof (step_showResetDialog fdn iso (PropsChange p gap) w) as Hd.
  cbn beta iota in Hd.
  refine (conj _ (conj _ (conj _ (conj _ (conj Hu (conj Hd
          (conj Hp (conj Hr (conj Ht Hc))))))))).
  all: cbn [step]; unfold changeProps.
  all: assert (Hdeps : depsChanged (lockedUntil (props w)) (lockedUntil p) = true)
         by (rewrite Hnew; destruct (lockedUntil (props w)) as [a|]; cbn;
             [apply negb_true_iff; apply Z.eqb_neq; congruence | reflexivity]).
  all: rewrite Hdeps; unfold runEffect, cleanupEffect; cbn [props with_interval];
       rewrite Hnew.
  - match goal with
    | |- props (updateTimer l ?x) = _ =>
        destruct (updateTimer_frame l x) as (-> & _)
    end. reflexivity.
  - match goal with
    | |- now (updateTimer l ?x) = _ =>
        destruct (updateTimer_frame l x) as (_ & -> & _)
    end. reflexivity.
  - match goal with
    | |- interval (updateTimer l ?x) = _ =>
        destruct (updateTimer_frame l x) as (_ & _ & ->)
    end. reflexivity.
  - rewrite updateTimer_timeRemaining. reflexivity.
Qed.

Lemma X12_new_expiry_restarts_countdown_witness :
  let w := mount (sampleProps None (Some 65000) 3) 0 0 in
  let w' := step sampleDistance sampleISO
              (PropsChange (sampleProps None (Some 125000) 3) 0) w in
  interval w' = Some 125000 /\ timeRemaining (st w') = Some "2m 5s".
Proof.
  cbv zeta.
  pose proof (X12_new_expiry_restarts_countdown sampleDistance sampleISO
                (mount (sampleProps None (Some 65000) 3) 0 0)
                (sampleProps None (Some 125000) 3) 0 125000 eq_refl
                ltac:(vm_compute; discriminate))
    as (_ & _ & Hi & Ht & _).
  split; [exact Hi | rewrite Ht; reflexivity].
Defined.

Lemma lock_disappears_after_expiry_witness :
  let w' := run sampleDistance sampleISO [ClickResetPassword; Elapse 1000; Tick]
              (step sampleDistance sampleISO Tick
                 (run sampleDistance sampleISO [Elapse 1000; Tick; Elapse 2000]
                    (mount (sampleProps None (Some 3000) 5) 0 0))) in
  props w' = sampleProps None (Some 3000) 5 /\
  lockShown (view sampleDistance w') = false.
Proof.
  apply (lock_disappears_after_expiry sampleDistance sampleISO
           (sampleProps None (Some 3000) 5) 0 0 3000
           [Elapse 1000; Tick; Elapse 2000]
           [ClickResetPassword; Elapse 1000; Tick]).
  - reflexivity.
  - left. vm_compute. reflexivity.
  - reflexivity.
  - reflexivity.
  - vm_compute. discriminate.
Defined.

(** ** The countdown on screen and the clock *)

Section Lag.

Variable fdn : Z -> Z -> string.
Variable iso : Z -> string.

Lemma step_props_interval (e : Event) (w : World) :
  isPropsChange e = false ->
  props (step fdn iso e w) = props w /\ interval (step fdn iso e w) = interval w.
Proof.
  intros He. destruct e as [ms| | |i o| |b|p' gap]; cbn [step]; try discriminate.
  - auto.
  - destruct (interval w) as [l|] eqn:El; [|auto].
    destruct (updateTimer_frame l w) as (-> & _ & ->). auto.
  - destruct (v_unlockButton (view fdn w)) as [b|]; [|auto].
    destruct (button_disabled b); [auto|].
    destruct (handleUnlockAccount_start_effects iso (capture (props w)) w)
      as (_ & _ & _ & _ & _ & -> & -> & _).
    auto.
  - destruct (nth_error (pending w) i) as [c|]; [|auto].
    destruct (handleUnlockAccount_resume_effects iso c o
                (with_pending (remove_nth i (pending w)) w))
      as (_ & _ & _ & _ & -> & _ & -> & _).
    auto.
  - destruct (set_state_frame (setShowResetDialog true) w) as (-> & _ & -> & _). auto.
  - destruct (set_state_frame (setShowResetDialog b) w) as (-> & _ & -> & _). auto.
Qed.

(** Only a tick (and the effect) writes the countdown. *)
Lemma step_timeRemaining (e : Event) (w : World) :
  isPropsChange e = false ->
  timeRemaining (st (step fdn iso e w)) =
    match e, interval w with
    | Tick, Some l => countdown l (now w)
    | _, _ => timeRemaining (st w)
    end.
Proof.
  intros He. destruct e as [ms| | |i o| |b|p' gap]; cbn [step]; try discriminate.
  - reflexivity.
  - destruct (interval w) as [l|]; [|reflexivity].
    apply updateTimer_timeRemaining.
  - destruct (v_unlockButton (view fdn w)) as [b|]; [|reflexivity].
    destruct (button_disabled b); [reflexivity|].
    destruct (handleUnlockAccount_start_effects iso (capture (props w)) w)
      as (_ & _ & _ & _ & _ & _ & _ & _ & _ & ->).
    reflexivity.
  - destruct (nth_error (pending w) i) as [c|]; [|reflexivity].
    destruct (handleUnlockAccount_resume_effects iso c o
                (with_pending (remove_nth i (pending w)) w))
      as (_ & _ & _ & _ & _ & _ & _ & _ & _ & ->).
    reflexivity.
  - rewrite set_state_st. reflexivity.
  - rewrite set_state_st. reflexivity.
Qed.

Lemma lag_run (l : Z) (es : list Event) :
  forallb (fun e => negb (isPropsChange e)) es = true ->
  forall w t0,
    interval w = Some l -> rendered_at w <= now w ->
    t0 <= now w -> timeRemaining (st w) = countdown l t0 ->
    exists t1,
      t0 <= t1 <= now (run fdn iso es w) /\
      timeRemaining (st (run fdn iso es w)) = countdown l t1.
Proof.
  induction es as [|e es IH]; intros Hes w t0 Hi Hr Ht0 Hshown.
  - exists t0. cbn. split; [lia | exact Hshown].
  - cbn in Hes. apply andb_true_iff in Hes. destruct Hes as [He Hes].
    apply negb_true_iff in He.
    change (run fdn iso (e :: es) w) with (run fdn iso es (step fdn iso e w)).
    destruct (step_props_interval e w He) as [_ Hi'].
    destruct (step_clock fdn iso e w Hr) as (Hn' & _ & Hr').
    pose proof (step_timeRemaining e w He) as Ht'. rewrite Hi in Ht'.
    destruct e as [ms| | |i o| |b|p' gap]; try discriminate; lazy beta iota in Ht'.
    2: { destruct (IH Hes (step fdn iso Tick w) (now w)
                    ltac:(congruence) ltac:(lia) ltac:(lia) Ht') as (t1 & ? & ?).
         exists t1. split; [lia|assumption]. }
    all: match goal with
         | |- context [now (run _ _ _ ?x)] =>
             destruct (IH Hes x t0 ltac:(congruence) ltac:(lia) ltac:(lia)
                         ltac:(congruence)) as (t1 & ? & ?);
             exists t1; split; [lia|assumption]
         end.
Qed.

End Lag.

(** X13: with the lock-expiry prop fixed, the countdown on screen is
    always the one computed at some clock reading between the effect's
    first update and now: it can lag behind the clock (by as much as the
    ticks are late) but it never runs ahead, so it never shows less time
    than is left; in particular a null countdown means the expiry has
    passed. *)
Theorem X13_countdown_lags_never_leads
    (fdn : Z -> Z -> string) (iso : Z -> string)
    (p : Props) (t : Z) (gap : N) (l : Z) (es : list Event)
    (Hlock : lockedUntil p = Some l)
    (Hes : forallb (fun e => negb (isPropsChange e)) es = true) :
  let w := run fdn iso es (mount p t gap) in
  (exists t1,
     t + Z.of_N gap <= t1 <= now w /\
     timeRemaining (st w) = countdown l t1) /\
  (timeRemaining (st w) = None -> l <= now w).
Proof.
  cbv zeta.
  destruct (mount_locked p t gap l Hlock) as (_ & Hn & Hi & Ht).
  destruct (timerInv_mount p t gap) as [[_ Hr] _].
  destruct (lag_run fdn iso l es Hes (mount p t gap) (t + Z.of_N gap)
              Hi Hr ltac:(lia) Ht) as (t1 & Hb & Hshown).
  split.
  - exists t1. split; [lia | exact Hshown].
  - intros Hnone. rewrite Hshown in Hnone.
    apply countdown_None_iff in Hnone. lia.
Qed.

Lemma X13_countdown_lags_never_leads_witness :
  let w := run sampleDistance sampleISO [Elapse 1000; Tick; Elapse 30000; ClickUnlock]
             (mount (sampleProps None (Some 65000) 3) 0 0) in
  (exists t1, 0 + Z.of_N 0 <= t1 <= now w /\
     timeRemaining (st w) = countdown 65000 t1) /\
  (timeRemaining (st w) = None -> 65000 <= now w).
Proof.
  apply (X13_countdown_lags_never_leads sampleDistance sampleISO
           (sampleProps None (Some 65000) 3) 0 0 65000
           [Elapse 1000; Tick; Elapse 30000; ClickUnlock]);
    reflexivity.
Defined.

(** ** The text of the lock badge *)

(** X14: with the lock-expiry prop fixed and the effect's first update run
    before the expiry (or the mount after it), a lock badge that is on
    screen always comes with a stored countdown string and reads
    "Locked for " followed by it: the bare "Locked" of the first render is
    never on screen once the effect has run.  (Only the guard of the badge,
    line 131, is involved.) *)
Theorem X14_lock_badge_shows_countdown
    (fdn : Z -> Z -> string) (iso : Z -> string)
    (p : Props) (t : Z) (gap : N) (l : Z) (es : list Event)
    (Hlock : lockedUntil p = Some l)
    (Hfirst : t + Z.of_N gap < l \/ l <= t)
    (Hes : forallb (fun e => negb (isPropsChange e)) es = true) :
  let w := run fdn iso es (mount p t gap) in
  forall b, v_lockBadge (view fdn w) = Some b ->
    rendered_at w < l /\
    exists r, timeRemaining (st w) = Some r /\
              b = mkBadge "bg-red-500/10 text-red-500" Lock ("Locked for " ++ r)%string.
Proof.
  cbv zeta.
  pose proof (lockInv_run fdn iso p l es Hes _ (lockInv_mount p t gap l Hlock Hfirst))
    as (Hp & _ & _ & Hset).
  unfold view. rewrite Hp.
  destruct (Z_lt_le_dec
              (rendered_at (run fdn iso es (mount p t gap))) l) as [Hlt|Hle].
  - destruct (render_lock_shown fdn p (st (run fdn iso es (mount p t gap)))
                _ l Hlock Hlt) as (Hb & _ & _).
    rewrite Hb. intros b E. injection E as <-. split; [exact Hlt|].
    specialize (Hset Hlt).
    destruct (timeRemaining (st (run fdn iso es (mount p t gap)))) as [r|];
      [|contradiction].
    exists r. split; reflexivity.
  - destruct (render_lock_hidden fdn p (st (run fdn iso es (mount p t gap)))
                _ l Hlock Hle) as (Hb & _ & _).
    rewrite Hb. intros b E. discriminate.
Qed.

Lemma X14_lock_badge_shows_countdown_witness :
  let w := run sampleDistance sampleISO [Elapse 1000; Tick; ClickUnlock]
             (mount (sampleProps None (Some 65000) 5) 0 0) in
  rendered_at w < 65000 /\
  exists r, timeRemaining (st w) = Some r /\
            mkBadge "bg-red-500/10 text-red-500" Lock "Locked for 1m 4s" =
            mkBadge "bg-red-500/10 text-red-500" Lock ("Locked for " ++ r)%string.
Proof.
  exact (X14_lock_badge_shows_countdown sampleDistance sampleISO
           (sampleProps None (Some 65000) 5) 0 0 65000
           [Elapse 1000; Tick; ClickUnlock]
           eq_refl (or_introl eq_refl) eq_refl
           (mkBadge "bg-red-500/10 text-red-500" Lock "Locked for 1m 4s") eq_refl).
Defined.

Example lock_badge_after_a_tick :
  let w := run sampleDistance sampleISO [Elapse 1000; Tick; ClickUnlock]
             (mount (sampleProps None (Some 65000) 5) 0 0) in
  v_lockBadge (view sampleDistance w) =
    Some (mkBadge "bg-red-500/10 text-red-500" Lock "Locked for 1m 4s") /\
  v_unlockButton (view sampleDistance w) =
    Some (mkButton true Lock "Unlocking...").
Proof. vm_compute. split; reflexivity. Qed.
